(** * Code graph generator ([.ai-gov/tools/graph-generator.py])

    A shallow embedding of [CodeGraphGenerator]: the identifier assigner
    [generate_id], the extractor [extract_python_nodes], the graph builder
    [generate] and the statistics engine [get_statistics], followed by the
    properties of the specification stated over them.

    Conventions of the embedding.
    - A Python [str] is a Rocq [string] holding its UTF-8 bytes, so
      [str.encode()] is [list_byte_of_string] and [bytes.decode('utf8')]
      is a validity check ([Utf8.decode]).
    - A Python [bytes] is a [list byte]; a Python [int] is a [Z] where it can
      be negative and a [nat] for tree-sitter offsets and for counters.
    - A Python [dict] is an insertion-ordered association list ([Dict]).
    - [self.nodes] and [self.edges] live in a state record threaded by a
      state-and-exception monad; an exception keeps the state reached so far.
    - [hashlib.md5] is the MD5 function of RFC 1321, written out in [MD5]. *)

From Stdlib Require Import ZArith List String Ascii Bool Lia.
From Stdlib Require Import Permutation Sorted DecimalString DecimalPos DecimalZ.
From Stdlib Require Strings.Byte.
Import ListNotations.

Local Open Scope string_scope.
Local Open Scope list_scope.
Local Open Scope nat_scope.

(* ================================================================== *)
(** * [hashlib.md5]: the MD5 digest of RFC 1321 *)
(* ================================================================== *)

Module MD5.
Local Open Scope Z_scope.

(** 32-bit words are [Z] with the wrap-around written out. *)
Definition wrap32 (x : Z) : Z := x mod 2 ^ 32.

Definition not32 (x : Z) : Z := Z.lxor x 0xFFFFFFFF.

Definition rotl32 (x c : Z) : Z :=
  wrap32 (Z.lor (Z.shiftl x c) (Z.shiftr x (32 - c))).

(** Per-round shift amounts. *)
Definition S_table : list Z :=
  [ 7; 12; 17; 22;  7; 12; 17; 22;  7; 12; 17; 22;  7; 12; 17; 22;
    5;  9; 14; 20;  5;  9; 14; 20;  5;  9; 14; 20;  5;  9; 14; 20;
    4; 11; 16; 23;  4; 11; 16; 23;  4; 11; 16; 23;  4; 11; 16; 23;
    6; 10; 15; 21;  6; 10; 15; 21;  6; 10; 15; 21;  6; 10; 15; 21 ].

(** [K_table[i] = floor (2^32 * abs (sin (i + 1)))]. *)
Definition K_table : list Z :=
  [ 0xd76aa478; 0xe8c7b756; 0x242070db; 0xc1bdceee;
    0xf57c0faf; 0x4787c62a; 0xa8304613; 0xfd469501;
    0x698098d8; 0x8b44f7af; 0xffff5bb1; 0x895cd7be;
    0x6b901122; 0xfd987193; 0xa679438e; 0x49b40821;
    0xf61e2562; 0xc040b340; 0x265e5a51; 0xe9b6c7aa;
    0xd62f105d; 0x02441453; 0xd8a1e681; 0xe7d3fbc8;
    0x21e1cde6; 0xc33707d6; 0xf4d50d87; 0x455a14ed;
    0xa9e3e905; 0xfcefa3f8; 0x676f02d9; 0x8d2a4c8a;
    0xfffa3942; 0x8771f681; 0x6d9d6122; 0xfde5380c;
    0xa4beea44; 0x4bdecfa9; 0xf6bb4b60; 0xbebfbc70;
    0x289b7ec6; 0xeaa127fa; 0xd4ef3085; 0x04881d05;
    0xd9d4d039; 0xe6db99e5; 0x1fa27cf8; 0xc4ac5665;
    0xf4292244; 0x432aff97; 0xab9423a7; 0xfc93a039;
    0x655b59c3; 0x8f0ccc92; 0xffeff47d; 0x85845dd1;
    0x6fa87e4f; 0xfe2ce6e0; 0xa3014314; 0x4e0811a1;
    0xf7537e82; 0xbd3af235; 0x2ad7d2bb; 0xeb86d391 ].

(** The four auxiliary functions, selected by the round index. *)
Definition mix (i : nat) (b c d : Z) : Z :=
  if (i <? 16)%nat then Z.lor (Z.land b c) (Z.land (not32 b) d)
  else if (i <? 32)%nat then Z.lor (Z.land d b) (Z.land (not32 d) c)
  else if (i <? 48)%nat then Z.lxor b (Z.lxor c d)
  else Z.lxor c (Z.lor b (not32 d)).

(** Which message word round [i] reads. *)
Definition word_index (i : nat) : nat :=
  if (i <? 16)%nat then i
  else if (i <? 32)%nat then (5 * i + 1) mod 16
  else if (i <? 48)%nat then (3 * i + 5) mod 16
  else (7 * i) mod 16.

Definition state : Type := Z * Z * Z * Z.

Definition init : state := (0x67452301, 0xefcdab89, 0x98badcfe, 0x10325476).

Definition round (M : list Z) (st : state) (i : nat) : state :=
  let '(a, b, c, d) := st in
  let f := wrap32 (mix i b c d + a + nth i K_table 0 + nth (word_index i) M 0) in
  (d, wrap32 (b + rotl32 f (nth i S_table 0)), b, c).

(** One 512-bit block: 64 rounds, then the feed-forward addition. *)
Definition compress (st : state) (M : list Z) : state :=
  let '(a0, b0, c0, d0) := st in
  let '(a, b, c, d) := fold_left (round M) (seq 0 64) st in
  (wrap32 (a0 + a), wrap32 (b0 + b), wrap32 (c0 + c), wrap32 (d0 + d)).

Definition byte_val (b : Byte.byte) : Z := Z.of_N (Byte.to_N b).

(** Little-endian 32-bit words of a byte sequence (a trailing partial word
    is dropped; the padded message has none). *)
Fixpoint words_of_bytes (l : list Z) : list Z :=
  match l with
  | b0 :: b1 :: b2 :: b3 :: r =>
      (b0 + Z.shiftl b1 8 + Z.shiftl b2 16 + Z.shiftl b3 24) :: words_of_bytes r
  | _ => []
  end.

Definition le_bytes (n : nat) (x : Z) : list Z :=
  map (fun k => Z.land (Z.shiftr x (8 * Z.of_nat k)) 0xFF) (seq 0 n).

(** Padding: a 1 bit, zeros up to 56 mod 64, then the bit length on 64 bits. *)
Definition pad (msg : list Z) : list Z :=
  let len := List.length msg in
  let zeros := ((55 + 64 - len mod 64) mod 64)%nat in
  msg ++ [0x80] ++ repeat 0 zeros
      ++ le_bytes 8 ((8 * Z.of_nat len) mod 2 ^ 64).

(** Words are consumed one at a time; a block is compressed as soon as its
    sixteenth word arrives. *)
Definition feed (acc : state * list Z) (w : Z) : state * list Z :=
  let '(st, buf) := acc in
  let buf' := buf ++ [w] in
  if (List.length buf' =? 16)%nat then (compress st buf', []) else (st, buf').

Definition digest_words (msg : list Byte.byte) : state :=
  fst (fold_left feed (words_of_bytes (pad (map byte_val msg))) (init, [])).

(** The 16 digest bytes. *)
Definition digest (msg : list Byte.byte) : list Z :=
  let '(a, b, c, d) := digest_words msg in
  le_bytes 4 a ++ le_bytes 4 b ++ le_bytes 4 c ++ le_bytes 4 d.

Definition hex_digits : list ascii :=
  ["0"; "1"; "2"; "3"; "4"; "5"; "6"; "7";
   "8"; "9"; "a"; "b"; "c"; "d"; "e"; "f"]%char.

Definition hex_digit (x : Z) : ascii := nth (Z.to_nat x) hex_digits "0"%char.

Definition hex_byte (x : Z) : string :=
  String (hex_digit (Z.shiftr x 4)) (String (hex_digit (Z.land x 0xF)) EmptyString).

Fixpoint hex_bytes (l : list Z) : string :=
  match l with
  | [] => EmptyString
  | x :: r => (hex_byte x ++ hex_bytes r)%string
  end.

(** [hashlib.md5(data).hexdigest()] *)
Definition hexdigest (msg : list Byte.byte) : string := hex_bytes (digest msg).

End MD5.

(** [str(n)] / [f"{n}"] for a Python [int]. *)
Definition str_int (n : Z) : string := NilZero.string_of_int (Z.to_int n).

(** [CodeGraphGenerator.generate_id]: the string that is hashed. *)
Definition id_content (type path name : string) (line : Z) : string :=
  (type ++ ":" ++ path ++ ":" ++ name ++ ":" ++ str_int line)%string.

(** [CodeGraphGenerator.generate_id] *)
Definition generate_id (type path name : string) (line : Z) : string :=
  let content := id_content type path name line in
  substring 0 16 (MD5.hexdigest (list_byte_of_string content)).

(** The first 8 digest bytes of the hashed string (the 64 bits that the
    16 hex characters of an id encode). *)
Definition id_bits (type path name : string) (line : Z) : list Z :=
  firstn 8 (MD5.digest (list_byte_of_string (id_content type path name line))).


(* ================================================================== *)
(** * Python values used by the program *)
(* ================================================================== *)

(** [bytes.decode('utf8')]: strict UTF-8 (no overlong forms, no
    surrogates, nothing above U+10FFFF); an ill-formed sequence raises. *)
Module Utf8.
Local Open Scope N_scope.

Definition between (lo hi b : N) : bool := (lo <=? b) && (b <=? hi).

Definition cont (b : N) : bool := between 0x80 0xBF b.

Fixpoint valid (l : list N) : bool :=
  match l with
  | [] => true
  | b0 :: r0 =>
      if b0 <? 0x80 then valid r0
      else if between 0xC2 0xDF b0 then
        match r0 with
        | b1 :: r1 => cont b1 && valid r1
        | _ => false
        end
      else if between 0xE0 0xEF b0 then
        match r0 with
        | b1 :: b2 :: r2 =>
            (if b0 =? 0xE0 then between 0xA0 0xBF b1
             else if b0 =? 0xED then between 0x80 0x9F b1
             else cont b1)
            && cont b2 && valid r2
        | _ => false
        end
      else if between 0xF0 0xF4 b0 then
        match r0 with
        | b1 :: b2 :: b3 :: r3 =>
            (if b0 =? 0xF0 then between 0x90 0xBF b1
             else if b0 =? 0xF4 then between 0x80 0x8F b1
             else cont b1)
            && cont b2 && cont b3 && valid r3
        | _ => false
        end
      else false
  end.

Definition decode (bs : list Byte.byte) : option string :=
  if valid (map Byte.to_N bs) then Some (string_of_list_byte bs) else None.

End Utf8.

(** [l[a:b]] for non-negative [a] and [b]. *)
Definition slice {A : Type} (a b : nat) (l : list A) : list A :=
  firstn (b - a) (skipn a l).

(** Whether the character [c] occurs in [s]. *)
Fixpoint has_char (c : ascii) (s : string) : bool :=
  match s with
  | EmptyString => false
  | String a r => Ascii.eqb a c || has_char c r
  end.

(** [needle in haystack] on strings. *)
Definition str_in (needle haystack : string) : bool :=
  match index 0 needle haystack with
  | Some _ => true
  | None => false
  end.

(** A [dict] with [str] keys: an association list in insertion order.
    Assigning to a key that is present keeps its position. *)
Module Dict.
Section Ops.
Context {V : Type}.

Definition t : Type := list (string * V).

Definition empty : t := [].

(** [d.get(k, default)] *)
Fixpoint get (d : t) (k : string) (default : V) : V :=
  match d with
  | [] => default
  | (k', v) :: r => if String.eqb k' k then v else get r k default
  end.

(** [d[k] = v] *)
Fixpoint set (d : t) (k : string) (v : V) : t :=
  match d with
  | [] => [(k, v)]
  | (k', v') :: r =>
      if String.eqb k' k then (k', v) :: r else (k', v') :: set r k v
  end.

(** [d.items()] *)
Definition items (d : t) : list (string * V) := d.

Definition keys (d : t) : list string := map fst d.

(** [k in d] *)
Definition mem (d : t) (k : string) : bool :=
  existsb (String.eqb k) (keys d).
End Ops.
Arguments t : clear implicits.
End Dict.

(** [sorted(l, key=key, reverse=True)]: a stable sort into descending key
    order. Elements are inserted from the right, each one in front of the
    first element whose key is not greater, so equal keys keep the order
    they had in [l]. *)
Section Sorted.
Context {A : Type} (key : A -> nat).

Fixpoint insert_desc (x : A) (l : list A) : list A :=
  match l with
  | [] => [x]
  | y :: r => if (key y <=? key x)%nat then x :: y :: r else y :: insert_desc x r
  end.

Fixpoint sorted_reverse (l : list A) : list A :=
  match l with
  | [] => []
  | x :: r => insert_desc x (sorted_reverse r)
  end.
End Sorted.

(* ================================================================== *)
(** * Data model *)
(* ================================================================== *)

(** Values stored in [Node.metadata]: the language tag and the import list. *)
Inductive MetaValue : Type :=
| MStr (s : string)
| MList (l : list string).

(** [location]: a dict with the keys [line] and [column]. *)
Record Location : Type := mkLocation { line : nat; column : nat }.

Module Node.
Record t : Type := mk {
  id : string;
  type : string;           (* file, class, function, method *)
  name : string;
  path : string;
  location : Location;
  metadata : option (Dict.t MetaValue)   (* defaults to [None] *)
}.

Definition with_metadata (n : t) (md : Dict.t MetaValue) : t :=
  mk (id n) (type n) (name n) (path n) (location n) (Some md).
End Node.

Module Edge.
Record t : Type := mk {
  source : string;
  target : string;
  type : string            (* imports, contains, calls, inherits *)
}.
End Edge.

(** A path as its components ([PurePath.parts]). Discovered files are kept
    relative to the scanned root. *)
Definition Path : Type := list string.

(** [str(path)] *)
Definition path_str (p : Path) : string := String.concat "/" p.

(** [path.name] *)
Definition path_name (p : Path) : string := last p "".

(* ================================================================== *)
(** * The parser adapter (tree-sitter), as far as the program uses it *)
(* ================================================================== *)

(** A syntax node: the field name it has in its parent (if any), its byte
    span, its start point [(row, column)] and its children. *)
#[warnings="-register-all"]
Inductive TSNode : Type :=
| mkTSNode (field_name : option string) (start_byte end_byte : nat)
           (start_point : nat * nat) (children : list TSNode).

Definition field_name (n : TSNode) : option string :=
  match n with mkTSNode f _ _ _ _ => f end.

Definition start_byte (n : TSNode) : nat :=
  match n with mkTSNode _ sb _ _ _ => sb end.

Definition end_byte (n : TSNode) : nat :=
  match n with mkTSNode _ _ eb _ _ => eb end.

Definition start_point (n : TSNode) : nat * nat :=
  match n with mkTSNode _ _ _ sp _ => sp end.

Definition children (n : TSNode) : list TSNode :=
  match n with mkTSNode _ _ _ _ cs => cs end.

(** [node.child_by_field_name(field)]: the first child under that field. *)
Definition child_by_field_name (n : TSNode) (field : string) : option TSNode :=
  find (fun c => match field_name c with
                 | Some f => String.eqb f field
                 | None => false
                 end) (children n).

(** A capture: the matched node and its capture label. *)
Definition Capture : Type := (TSNode * string)%type.

(** A parsed tree, seen through the three queries the extractor runs on
    its root: what [class_query.captures], [function_query.captures] and
    [import_query.captures] return, in order. *)
Record Tree : Type := mkTree {
  class_captures : list Capture;
  function_captures : list Capture;
  import_captures : list Capture
}.

(* ================================================================== *)
(** * The generator object and the effects of its methods *)
(* ================================================================== *)

(** The attributes of a [CodeGraphGenerator] ([parser] and [lang_obj]
    belong to the parser adapter). *)
Record Generator : Type := mkGenerator {
  root_path : Path;
  language : string;
  nodes : list Node.t;
  edges : list Edge.t;
  exclude_patterns : list string
}.

Definition default_exclude_patterns : list string :=
  ["node_modules"; "venv"; "dist"; "build"; ".git";
   "__pycache__"; ".pytest_cache"; "target"; ".idea"].

(** [CodeGraphGenerator.__init__]; [exclude_patterns or [...]] takes the
    default for [None] and for an empty list. *)
Definition init (root : Path) (lang : string)
           (exclude : option (list string)) : Generator :=
  mkGenerator root lang [] []
    (match exclude with
     | Some (p :: ps) => p :: ps
     | _ => default_exclude_patterns
     end).

(** Exceptions the modelled code can raise. *)
Inductive Exn : Type :=
| OSError (msg : string)          (* [read_bytes] *)
| ParserError (msg : string)      (* [parser.parse] *)
| UnicodeDecodeError              (* [bytes.decode] *)
| TypeError.                      (* item assignment on [None] *)

(** One line printed on [sys.stderr] by [generate]:
    [Error processing {file_path}: {e}]. *)
Definition ErrLine : Type := (Path * Exn)%type.

(** What a method can touch: the object and the error stream. *)
Record World : Type := mkWorld {
  self : Generator;
  stderr : list ErrLine
}.

(** State and exceptions: a computation returns a value or raises, and in
    both cases leaves the world it reached. *)
Definition M (A : Type) : Type := World -> (Exn + A) * World.

Definition ret {A : Type} (a : A) : M A := fun w => (inr a, w).

Definition raise {A : Type} (e : Exn) : M A := fun w => (inl e, w).

Definition bind {A B : Type} (c : M A) (k : A -> M B) : M B :=
  fun w =>
    match c w with
    | (inr a, w') => k a w'
    | (inl e, w') => (inl e, w')
    end.

(** [try: body except Exception as e: handler(e)] *)
Definition try_except (body : M unit) (handler : Exn -> M unit) : M unit :=
  fun w =>
    match body w with
    | (inr tt, w') => (inr tt, w')
    | (inl e, w') => handler e w'
    end.

Notation "x <- c ;; k" := (bind c (fun x => k))
  (at level 61, c at next level, right associativity).
Notation "c ;; k" := (bind c (fun _ => k))
  (at level 61, right associativity).

Definition get_self : M Generator := fun w => (inr (self w), w).

Definition set_nodes (ns : list Node.t) : M unit :=
  fun w =>
    let g := self w in
    (inr tt,
     mkWorld (mkGenerator (root_path g) (language g) ns (edges g)
                          (exclude_patterns g))
             (stderr w)).

Definition set_edges (es : list Edge.t) : M unit :=
  fun w =>
    let g := self w in
    (inr tt,
     mkWorld (mkGenerator (root_path g) (language g) (nodes g) es
                          (exclude_patterns g))
             (stderr w)).

(** [self.nodes.append(n)] *)
Definition append_node (n : Node.t) : M unit :=
  g <- get_self ;; set_nodes (nodes g ++ [n]).

(** [self.edges.append(e)] *)
Definition append_edge (e : Edge.t) : M unit :=
  g <- get_self ;; set_edges (edges g ++ [e]).

(** [print(..., file=sys.stderr)] *)
Definition print_err (l : ErrLine) : M unit :=
  fun w => (inr tt, mkWorld (self w) (stderr w ++ [l])).

(** Lift a call that returns or raises without touching the world. *)
Definition lift {A : Type} (r : Exn + A) : M A :=
  match r with
  | inr a => ret a
  | inl e => raise e
  end.

(** [for x in l: body(x)] *)
Fixpoint for_each {A : Type} (l : list A) (body : A -> M unit) : M unit :=
  match l with
  | [] => ret tt
  | x :: r => body x ;; for_each r body
  end.

(** [content[a:b].decode('utf8')] *)
Definition decode_slice (content : list Byte.byte) (a b : nat) : M string :=
  match Utf8.decode (slice a b content) with
  | Some s => ret s
  | None => raise UnicodeDecodeError
  end.

(** The graph document returned by [generate]. *)
Module Graph.
Record Metadata : Type := mkMetadata {
  generated : string;
  language : string;
  root_path : Path;          (* [str(self.root_path)], kept as parts *)
  files_processed : nat;
  node_count : nat;
  edge_count : nat
}.

Record t : Type := mk {
  nodes : list Node.t;       (* [node.to_dict()] keeps every field *)
  edges : list Edge.t;
  metadata : Metadata
}.
End Graph.

(** The report returned by [get_statistics]. *)
Module Stats.
Record Entry : Type := mkEntry {
  name : string;
  type : string;
  path : string;
  connections : nat
}.

Record t : Type := mk {
  node_types : Dict.t nat;
  edge_types : Dict.t nat;
  top_connected : list Entry
}.
End Stats.

(** The collaborators outside the program: the directory walker, the file
    system, the parser with its query engine, and the clock. Paths are
    relative to the scanned root. *)
Record Env : Type := mkEnv {
  rglob : string -> list Path;
  is_file : Path -> bool;
  read_bytes : Path -> Exn + list Byte.byte;
  parser_parse : list Byte.byte -> Exn + Tree;
  now_isoformat : string
}.

(* ================================================================== *)
(** * [CodeGraphGenerator]: the methods *)
(* ================================================================== *)

(** [should_exclude]: [path.parts] are those of the absolute path. *)
Definition should_exclude (g : Generator) (p : Path) : bool :=
  let parts := root_path g ++ p in
  existsb (fun pattern => existsb (String.eqb pattern) parts)
          (exclude_patterns g).

(** The loops over [class_query.captures] (lines 116-134, with
    [kind = "class"] and [def_label = "class.def"]) and over
    [function_query.captures] (lines 137-155, with [kind = "function"] and
    [def_label = "func.def"]) have the same body. *)
Definition extract_declaration (kind def_label relative_path file_id : string)
           (content : list Byte.byte) (m : Capture) : M unit :=
  let '(node, capture_name) := m in
  if String.eqb capture_name def_label then
    match child_by_field_name node "name" with
    | Some name_node =>
        decl_name <- decode_slice content (start_byte name_node)
                                  (end_byte name_node) ;;
        let decl_id :=
          generate_id kind relative_path decl_name
                      (Z.of_nat (fst (start_point node))) in
        append_node
          (Node.mk decl_id kind decl_name relative_path
                   (mkLocation (fst (start_point node) + 1)
                               (snd (start_point node)))
                   (Some Dict.empty)) ;;
        append_edge (Edge.mk file_id decl_id "contains")
    | None => ret tt
    end
  else ret tt.

(** The loop over [import_query.captures] (lines 158-163). *)
Fixpoint collect_imports (content : list Byte.byte) (caps : list Capture)
         (imports : list string) : M (list string) :=
  match caps with
  | [] => ret imports
  | (node, capture_name) :: r =>
      if str_in "import.name" capture_name then
        import_name <- decode_slice content (start_byte node) (end_byte node) ;;
        collect_imports content r (imports ++ [import_name])
      else collect_imports content r imports
  end.

(** Lines 167-170: the first node whose id is [file_id] gets the key
    [imports]; the loop then breaks. *)
Fixpoint store_imports (file_id : string) (imports : list string)
         (ns : list Node.t) : Exn + list Node.t :=
  match ns with
  | [] => inr []
  | n :: r =>
      if String.eqb (Node.id n) file_id then
        match Node.metadata n with
        | Some md =>
            inr (Node.with_metadata n (Dict.set md "imports" (MList imports)) :: r)
        | None => inl TypeError
        end
      else
        match store_imports file_id imports r with
        | inr r' => inr (n :: r')
        | inl e => inl e
        end
  end.

Section Methods.
Variable env : Env.

(** [find_files] *)
Definition find_files (patterns : list string) : M (list Path) :=
  g <- get_self ;;
  ret (flat_map
         (fun pattern =>
            filter (fun file_path =>
                      is_file env file_path && negb (should_exclude g file_path))
                   (rglob env pattern))
         patterns).

(** [extract_python_nodes] *)
Definition extract_python_nodes (tree : Tree) (file_path : Path)
           (content : list Byte.byte) : M unit :=
  let relative_path := path_str file_path in
  let file_id := generate_id "file" relative_path (path_name file_path) 0 in
  g <- get_self ;;
  append_node
    (Node.mk file_id "file" (path_name file_path) relative_path
             (mkLocation 0 0)
             (Some [("language", MStr (language g))])) ;;
  for_each (class_captures tree)
           (extract_declaration "class" "class.def" relative_path file_id
                                content) ;;
  for_each (function_captures tree)
           (extract_declaration "function" "func.def" relative_path file_id
                                content) ;;
  imports <- collect_imports content (import_captures tree) [] ;;
  match imports with
  | [] => ret tt
  | _ :: _ =>
      g' <- get_self ;;
      ns <- lift (store_imports file_id imports (nodes g')) ;;
      set_nodes ns
  end.

(** The body of the loop of [generate] (lines 178-187). *)
Definition process_file (file_path : Path) : M unit :=
  try_except
    (content <- lift (read_bytes env file_path) ;;
     tree <- lift (parser_parse env content) ;;
     g <- get_self ;;
     if String.eqb (language g) "python"
     then extract_python_nodes tree file_path content
     else ret tt)
    (fun e => print_err (file_path, e)).

(** [generate] (the progress line on standard output is left out). *)
Definition generate (file_patterns : list string) : M Graph.t :=
  files <- find_files file_patterns ;;
  for_each files process_file ;;
  g <- get_self ;;
  ret (Graph.mk (nodes g) (edges g)
         (Graph.mkMetadata (now_isoformat env) (language g) (root_path g)
                           (List.length files)
                           (List.length (nodes g))
                           (List.length (edges g)))).
End Methods.

(** [d[k] = d.get(k, 0) + 1] *)
Definition bump (d : Dict.t nat) (k : string) : Dict.t nat :=
  Dict.set d k (Dict.get d k 0 + 1).

(** Lines 214-217: the edge count of every id that is an edge endpoint. *)
Definition connectivity_of (es : list Edge.t) : Dict.t nat :=
  fold_left (fun connectivity edge =>
               bump (bump connectivity (Edge.source edge)) (Edge.target edge))
            es Dict.empty.

(** [next((n for n in self.nodes if n.id == node_id), None)] *)
Definition lookup_node (ns : list Node.t) (node_id : string) : option Node.t :=
  find (fun n => String.eqb (Node.id n) node_id) ns.

(** Lines 221-230: entries are appended for the ids that name a node. *)
Fixpoint resolve_top (ns : list Node.t) (top_nodes : list (string * nat))
  : list Stats.Entry :=
  match top_nodes with
  | [] => []
  | (node_id, count) :: r =>
      match lookup_node ns node_id with
      | Some node =>
          Stats.mkEntry (Node.name node) (Node.type node) (Node.path node) count
          :: resolve_top ns r
      | None => resolve_top ns r
      end
  end.

(** [get_statistics] *)
Definition get_statistics : M Stats.t :=
  g <- get_self ;;
  let node_types :=
    fold_left (fun d node => bump d (Node.type node)) (nodes g) Dict.empty in
  let edge_types :=
    fold_left (fun d edge => bump d (Edge.type edge)) (edges g) Dict.empty in
  let connectivity := connectivity_of (edges g) in
  let top_nodes :=
    firstn 5 (sorted_reverse snd (Dict.items connectivity)) in
  let top_connected := resolve_top (nodes g) top_nodes in
  ret (Stats.mk node_types edge_types top_connected).

(* ================================================================== *)
(** * [main] *)
(* ================================================================== *)

(** One call of [print] on standard output. The text is kept by its
    parts; a leading newline inside the text belongs to the line. *)
Inductive OutLine : Type :=
| OutUsage                                   (* Usage: graph-generator.py ... *)
| OutExample                                 (* Example: ... *)
| OutUnsupported (language : string)         (* Error: Unsupported language *)
| OutSupported (names : list string)         (* Supported: a, b, ... *)
| OutGenerating (language : string)
| OutRootPath (root_path : string)
| OutPatterns (patterns : list string)
| OutBlank                                   (* [print()] *)
| OutFound (n : nat)                         (* printed by [generate] *)
| OutSaved (root_path : string)              (* Graph saved to <output_path> *)
| OutStatistics
| OutFilesProcessed (n : nat)
| OutTotalNodes (n : nat)
| OutTotalEdges (n : nat)
| OutNodesByType
| OutEdgesByType
| OutCount (type : string) (count : nat)     (* [    {type}: {count}] *)
| OutTopConnected
| OutTopNode (name type : string) (connections : nat)
| OutTopPath (path : string).

(** How a run of the script ends: [sys.exit(code)], an uncaught
    exception, or the end of [main]. *)
Inductive Outcome : Type :=
| Exited (code : nat)
| Crashed (e : Exn)
| Returned.

(** What a run of [main] leaves: how it ended, the lines printed on
    standard output and on standard error, and the graph written to
    [<root_path>/.ai-gov/code-graph.json], if any. *)
Record MainRun : Type := mkMainRun {
  outcome : Outcome;
  stdout : list OutLine;
  errors : list ErrLine;
  saved : option (string * Graph.t)
}.

(** The collaborators of [main]: [Path.resolve], the source tree under a
    root, [get_parser] (which raises for a language it does not know) and
    the three steps that write the output file, taken together. *)
Record MainEnv : Type := mkMainEnv {
  resolve : string -> Path;
  env_of_root : string -> Env;
  get_parser : string -> Exn + unit;
  write_json : string -> Graph.t -> Exn + unit
}.

Definition patterns_map : Dict.t (list string) :=
  [ ("python", ["**/*.py"]);
    ("javascript", ["**/*.js"; "**/*.jsx"]);
    ("typescript", ["**/*.ts"; "**/*.tsx"]);
    ("go", ["**/*.go"]);
    ("rust", ["**/*.rs"]);
    ("java", ["**/*.java"]) ].

(** The summary printed after the graph is saved (lines 281-297). *)
Definition print_summary (root_path : string) (graph : Graph.t)
           (stats : Stats.t) : list OutLine :=
  [ OutSaved root_path;
    OutStatistics;
    OutFilesProcessed (Graph.files_processed (Graph.metadata graph));
    OutTotalNodes (Graph.node_count (Graph.metadata graph));
    OutTotalEdges (Graph.edge_count (Graph.metadata graph));
    OutNodesByType ]
  ++ map (fun tc => OutCount (fst tc) (snd tc))
         (Dict.items (Stats.node_types stats))
  ++ [OutEdgesByType]
  ++ map (fun tc => OutCount (fst tc) (snd tc))
         (Dict.items (Stats.edge_types stats))
  ++ match Stats.top_connected stats with
     | [] => []
     | _ :: _ =>
         OutTopConnected
         :: flat_map (fun node =>
                        [ OutTopNode (Stats.name node) (Stats.type node)
                                     (Stats.connections node);
                          OutTopPath (Stats.path node) ])
                     (Stats.top_connected stats)
     end.

(** [main], on [sys.argv]. The line [Found N files to process], which
    [generate] prints, is put where it appears on standard output. *)
Definition main (menv : MainEnv) (argv : list string) : MainRun :=
  if List.length argv <? 2 then
    mkMainRun (Exited 1) [OutUsage; OutExample] [] None
  else
    let language := nth 1 argv "" in
    let root_path := if 2 <? List.length argv then nth 2 argv "" else "." in
    if negb (Dict.mem patterns_map language) then
      mkMainRun (Exited 1)
                [OutUnsupported language; OutSupported (Dict.keys patterns_map)]
                [] None
    else
      let patterns := Dict.get patterns_map language [] in
      let banner :=
        [ OutGenerating language; OutRootPath root_path;
          OutPatterns patterns; OutBlank ] in
      match get_parser menv language with
      | inl e => mkMainRun (Crashed e) banner [] None
      | inr _ =>
          let generator := init (resolve menv root_path) language None in
          match generate (env_of_root menv root_path) patterns
                         (mkWorld generator []) with
          | (inl e, w1) => mkMainRun (Crashed e) banner (stderr w1) None
          | (inr graph, w1) =>
              let found :=
                [OutFound (Graph.files_processed (Graph.metadata graph))] in
              match get_statistics w1 with
              | (inl e, w2) =>
                  mkMainRun (Crashed e) (banner ++ found) (stderr w2) None
              | (inr stats, w2) =>
                  match write_json menv root_path graph with
                  | inl e =>
                      mkMainRun (Crashed e) (banner ++ found) (stderr w2) None
                  | inr _ =>
                      mkMainRun Returned
                                (banner ++ found
                                 ++ print_summary root_path graph stats)
                                (stderr w2)
                                (Some (root_path, graph))
                  end
              end
          end
      end.

(* ================================================================== *)
(** * Vocabulary of the statements *)
(* ================================================================== *)

(** [sys.argv[1]], the language. *)
Definition main_language (argv : list string) : string := nth 1 argv "".

(** [sys.argv[2]] if there is one, else ["."]: the root. *)
Definition main_root (argv : list string) : string :=
  if 2 <? List.length argv then nth 2 argv "" else ".".

(** The ids an edge list touches, in the order the statistics loop meets
    them: source, then target, edge after edge. *)
Definition endpoints (es : list Edge.t) : list string :=
  flat_map (fun e => [Edge.source e; Edge.target e]) es.

(** Discovery order: each element once, at its first occurrence. *)
Fixpoint first_seen (l : list string) : list string :=
  match l with
  | [] => []
  | x :: r => x :: filter (fun y => negb (String.eqb y x)) (first_seen r)
  end.

(** Whether a ranked id names a node of the graph. *)
Definition resolves (ns : list Node.t) (ic : string * nat) : bool :=
  match lookup_node ns (fst ic) with
  | Some _ => true
  | None => false
  end.

(** The report entry of node [n] with count [c]. *)
Definition entry_of (n : Node.t) (c : nat) : Stats.Entry :=
  Stats.mkEntry (Node.name n) (Node.type n) (Node.path n) c.

(** A report entry is the resolution of a ranked item: the first node
    with that id gives name, type and path, the item gives the count. *)
Definition resolved_as (ns : list Node.t) (ic : string * nat)
           (e : Stats.Entry) : Prop :=
  exists n, lookup_node ns (fst ic) = Some n /\ e = entry_of n (snd ic).

(** The world [w] with its node and edge lists replaced. *)
Definition with_graph (w : World) (ns : list Node.t) (es : list Edge.t)
  : World :=
  mkWorld (mkGenerator (root_path (self w)) (language (self w)) ns es
                       (exclude_patterns (self w)))
          (stderr w).

(** The containment edge from a file to one of its declarations. *)
Definition contains_edge (file_id : string) (n : Node.t) : Edge.t :=
  Edge.mk file_id (Node.id n) "contains".

(** What one capture of a declaration query amounts to: nothing (another
    label, or no name child), an exception (the name is not UTF-8), or a
    node. *)
Definition decl_node (kind def_label relative_path : string)
           (content : list Byte.byte) (m : Capture) : option (Exn + Node.t) :=
  if String.eqb (snd m) def_label then
    match child_by_field_name (fst m) "name" with
    | Some name_node =>
        match Utf8.decode (slice (start_byte name_node) (end_byte name_node)
                                 content) with
        | Some decl_name =>
            Some (inr (Node.mk
                         (generate_id kind relative_path decl_name
                                      (Z.of_nat (fst (start_point (fst m)))))
                         kind decl_name relative_path
                         (mkLocation (fst (start_point (fst m)) + 1)
                                     (snd (start_point (fst m))))
                         (Some Dict.empty)))
        | None => Some (inl UnicodeDecodeError)
        end
    | None => None
    end
  else None.

(** The nodes a declaration loop emits over a capture list, and the
    exception that stops it, if any. *)
Fixpoint declared (kind def_label relative_path : string)
         (content : list Byte.byte) (caps : list Capture)
  : list Node.t * option Exn :=
  match caps with
  | [] => ([], None)
  | m :: r =>
      match decl_node kind def_label relative_path content m with
      | None => declared kind def_label relative_path content r
      | Some (inl e) => ([], Some e)
      | Some (inr n) =>
          let '(ns, e) := declared kind def_label relative_path content r in
          (n :: ns, e)
      end
  end.

(** The raw text of an import capture. *)
Definition import_text (content : list Byte.byte) (cap : Capture)
  : option string :=
  Utf8.decode (slice (start_byte (fst cap)) (end_byte (fst cap)) content).

(** The captures the import loop reads. *)
Definition import_name_captures (tree : Tree) : list Capture :=
  filter (fun cap => str_in "import.name" (snd cap)) (import_captures tree).

(** The id of the file node of [file_path]. *)
Definition file_id_of (file_path : Path) : string :=
  generate_id "file" (path_str file_path) (path_name file_path) 0.

(** The file node of [file_path] as it is first appended. *)
Definition file_node_of (lang : string) (file_path : Path) : Node.t :=
  Node.mk (file_id_of file_path) "file" (path_name file_path)
          (path_str file_path) (mkLocation 0 0)
          (Some [("language", MStr lang)]).

(** The class nodes, then the function nodes, that extraction emits for a
    file; the function loop only runs when the class loop completes. *)
Definition extracted_decls (tree : Tree) (file_path : Path)
           (content : list Byte.byte) : list Node.t :=
  let cd := declared "class" "class.def" (path_str file_path) content
                     (class_captures tree) in
  let fd := declared "function" "func.def" (path_str file_path) content
                     (function_captures tree) in
  fst cd ++ match snd cd with
            | None => fst fd
            | Some _ => []
            end.

Definition edge_eq_dec (e1 e2 : Edge.t) : {e1 = e2} + {e1 <> e2}.
Proof. decide equality; apply string_dec. Defined.

(** A computation that neither reads nor rewrites the error stream: it
    only appends to it, and what it does to the generator does not depend
    on what was printed before. *)
Definition stderr_frame {A : Type} (c : M A) : Prop :=
  forall g : Generator,
  exists (r : Exn + A) (g' : Generator) (out : list ErrLine),
  forall err, c (mkWorld g err) = (r, mkWorld g' (err ++ out)).

(** Two nodes that agree on everything but the content of the metadata
    (which stays a dict if it was one). *)
Definition same_core (a b : Node.t) : Prop :=
  Node.id a = Node.id b
  /\ Node.type a = Node.type b
  /\ Node.name a = Node.name b
  /\ Node.path a = Node.path b
  /\ Node.location a = Node.location b
  /\ (Node.metadata a <> None -> Node.metadata b <> None).

(** The start line a node's id is computed from: 0 for a file node, the
    0-based row, one less than the reported line, for a declaration. *)
Definition start_line_of (n : Node.t) : Z :=
  if String.eqb (Node.type n) "file" then 0%Z
  else Z.of_nat (line (Node.location n) - 1).

(** A node as the extractor makes them. *)
Definition node_wf (n : Node.t) : Prop :=
  (Node.type n = "file" /\ Node.location n = mkLocation 0 0
   \/ (Node.type n = "class" \/ Node.type n = "function")
      /\ 1 <= line (Node.location n))
  /\ Node.id n
     = generate_id (Node.type n) (Node.path n) (Node.name n) (start_line_of n)
  /\ Node.metadata n <> None.

(** Class and function nodes, as opposed to file nodes. *)
Definition is_decl (n : Node.t) : bool :=
  negb (String.eqb (Node.type n) "file").

(** An edge as the extractor makes them: a containment edge from a file
    node of the list to a declaration node of the list with the same
    path. *)
Definition edge_wf (ns : list Node.t) (e : Edge.t) : Prop :=
  Edge.type e = "contains"
  /\ exists f d,
      In f ns /\ In d ns
      /\ Node.type f = "file" /\ Node.id f = Edge.source e
      /\ (Node.type d = "class" \/ Node.type d = "function")
      /\ Node.id d = Edge.target e
      /\ Node.path f = Node.path d.

(** The graphs the extractor builds. *)
Definition graph_wf (g : Generator) : Prop :=
  Forall node_wf (nodes g)
  /\ Forall (edge_wf (nodes g)) (edges g)
  /\ List.length (edges g) = List.length (filter is_decl (nodes g)).

(** Append-only growth of the generator: the old nodes stay in place, up
    to their metadata, new nodes and new edges come after them, and the
    configuration is unchanged. *)
Definition grows (g g' : Generator) : Prop :=
  (exists olds news,
      nodes g' = olds ++ news /\ Forall2 same_core (nodes g) olds)
  /\ (exists es, edges g' = edges g ++ es)
  /\ root_path g' = root_path g
  /\ language g' = language g
  /\ exclude_patterns g' = exclude_patterns g.

(** What one discovered file adds to the graph of a generator for
    language [lang], as far as it does not depend on the graph: nothing
    when the read or the parse raises or the language is not Python, else
    its file node followed by its declaration nodes, and their containment
    edges. *)
Definition file_contribution (env : Env) (lang : string) (f : Path)
  : list Node.t * list Edge.t :=
  match read_bytes env f with
  | inl _ => ([], [])
  | inr content =>
      match parser_parse env content with
      | inl _ => ([], [])
      | inr tree =>
          if String.eqb lang "python" then
            (file_node_of lang f :: extracted_decls tree f content,
             map (contains_edge (file_id_of f))
                 (extracted_decls tree f content))
          else ([], [])
      end
  end.

(* ================================================================== *)
(** * Sample inputs *)
(* ================================================================== *)

Definition sample_node (id type name : string) : Node.t :=
  Node.mk id type name "pkg/mod.py" (mkLocation 1 0) (Some Dict.empty).

(** The graph of the worked statistics example: a file with one class and
    one function. *)
Definition sample_graph : Generator :=
  mkGenerator ["srv"; "repo"] "python"
    [ sample_node "F" "file" "mod.py";
      sample_node "A" "class" "Alpha";
      sample_node "B" "function" "beta" ]
    [ Edge.mk "F" "A" "contains"; Edge.mk "F" "B" "contains" ]
    default_exclude_patterns.

(** A graph with one real node and five edge endpoints that name no node. *)
Definition dangling_graph : Generator :=
  mkGenerator ["srv"; "repo"] "python"
    [ sample_node "n" "function" "orphan" ]
    [ Edge.mk "d1" "d2" "calls"; Edge.mk "d2" "d3" "calls";
      Edge.mk "d3" "d4" "calls"; Edge.mk "d4" "d5" "calls";
      Edge.mk "d5" "d1" "calls"; Edge.mk "n" "d1" "calls" ]
    default_exclude_patterns.

Definition newline : string := String (ascii_of_nat 10) EmptyString.

(** A module with one import, one class and one method. *)
Definition sample_source : list Byte.byte :=
  list_byte_of_string
    ("import os" ++ newline ++
     "class K:" ++ newline ++
     "    def m(self):" ++ newline ++
     "        pass" ++ newline)%string.

Definition sample_function_def : TSNode :=
  mkTSNode None 23 48 (2, 4)
    [ mkTSNode (Some "name") 27 28 (2, 8) [];
      mkTSNode (Some "parameters") 28 34 (2, 9) [];
      mkTSNode (Some "body") 44 48 (3, 8) [] ].

Definition sample_class_def : TSNode :=
  mkTSNode None 10 48 (1, 0)
    [ mkTSNode (Some "name") 16 17 (1, 6) [];
      mkTSNode (Some "body") 23 48 (2, 4) [sample_function_def] ].

(** What the three queries capture on [sample_source]. *)
Definition sample_tree : Tree :=
  mkTree
    [ (sample_class_def, "class.def");
      (mkTSNode (Some "name") 16 17 (1, 6) [], "class.name") ]
    [ (sample_function_def, "func.def");
      (mkTSNode (Some "name") 27 28 (2, 8) [], "func.name") ]
    [ (mkTSNode (Some "name") 7 9 (0, 7) [], "import.name") ].

(** A capture labelled as a definition whose node has no name child. *)
Definition nameless_capture (label : string) : Capture :=
  (mkTSNode None 0 5 (0, 0) [mkTSNode (Some "body") 2 5 (0, 2) []], label).

(** A source tree with [pkg/mod.py] and an unreadable [bad.py]. *)
Definition sample_env : Env :=
  mkEnv (fun pattern =>
           if String.eqb pattern "**/*.py"
           then [["pkg"; "mod.py"]; ["bad.py"]; ["pkg"; "util.py"]]
           else [])
        (fun _ => true)
        (fun p => if String.eqb (path_str p) "bad.py"
                  then inl (OSError "Permission denied")
                  else inr sample_source)
        (fun _ => inr sample_tree)
        "2024-05-01T12:00:00".

(** The same tree without [bad.py]. *)
Definition sample_env_without_bad : Env :=
  mkEnv (fun pattern =>
           if String.eqb pattern "**/*.py"
           then [["pkg"; "mod.py"]; ["pkg"; "util.py"]]
           else [])
        (is_file sample_env) (read_bytes sample_env)
        (parser_parse sample_env) (now_isoformat sample_env).

(** A source tree where two patterns match the same file. *)
Definition overlap_env : Env :=
  mkEnv (fun pattern =>
           if String.eqb pattern "*.py" then [["mod.py"]]
           else if String.eqb pattern "mod*" then [["mod.py"]]
           else [])
        (fun _ => true)
        (fun _ => inr sample_source)
        (fun _ => inr sample_tree)
        "2024-05-01T12:00:00".

(** An empty source tree. *)
Definition empty_env : Env :=
  mkEnv (fun _ => []) (fun _ => true) (fun _ => inl (OSError "No such file"))
        (fun _ => inl (ParserError "no input")) "2024-05-01T12:00:00".

(** A generator as [main] builds it, with nothing printed yet. *)
Definition fresh_world : World :=
  mkWorld (init ["srv"; "repo"] "python" None) [].

(** The world after [mod.py] of [overlap_env] was processed once. *)
Definition reprocess_world : World :=
  snd (process_file overlap_env ["mod.py"] fresh_world).

(** A file whose class name is not UTF-8: the byte [0xff] stands where
    the identifier should be. *)
Definition broken_source : list Byte.byte :=
  list_byte_of_string "class " ++ [Byte.xff] ++ list_byte_of_string ": pass".

Definition broken_tree : Tree :=
  mkTree
    [ (mkTSNode None 0 13 (0, 0) [mkTSNode (Some "name") 6 7 (0, 6) []],
       "class.def") ]
    [] [].

(** A source tree with that one file. *)
Definition broken_env : Env :=
  mkEnv (fun pattern =>
           if String.eqb pattern "**/*.py" then [["broken.py"]] else [])
        (fun _ => true)
        (fun _ => inr broken_source)
        (fun _ => inr broken_tree)
        "2024-05-01T12:00:00".

(** A generator for a language other than Python. *)
Definition go_world : World :=
  mkWorld (init ["srv"; "repo"] "go" None) [].

(** A machine where every root shows the sample source tree, every parser
    is installed and the output file can be written. *)
Definition sample_main_env : MainEnv :=
  mkMainEnv (fun root => ["srv"; root]) (fun _ => sample_env)
            (fun _ => inr tt) (fun _ _ => inr tt).

(* ================================================================== *)
(** * Properties *)
(* ================================================================== *)

(** ** Strings *)

Lemma append_assoc (a b c : string) :
  ((a ++ b) ++ c)%string = (a ++ (b ++ c))%string.
Proof.
  induction a as [|x a IH]; simpl; [reflexivity | now rewrite IH].
Qed.

Lemma length_append (a b : string) :
  String.length (a ++ b) = String.length a + String.length b.
Proof.
  induction a as [|x a IH]; simpl; [reflexivity | now rewrite IH].
Qed.

Lemma append_inv_head (a x y : string) :
  (a ++ x)%string = (a ++ y)%string -> x = y.
Proof.
  induction a as [|c a IH]; simpl; intros H; [exact H |].
  injection H as H. now apply IH.
Qed.

Lemma append_inv_tail (r a a' : string) :
  (a ++ r)%string = (a' ++ r)%string -> a = a'.
Proof.
  revert a'. induction a as [|c a IH]; intros [|c' a'] H; simpl in H.
  - reflexivity.
  - apply (f_equal String.length) in H. simpl in H.
    rewrite length_append in H. lia.
  - apply (f_equal String.length) in H. simpl in H.
    rewrite length_append in H. lia.
  - injection H as -> H. f_equal. now apply IH.
Qed.

Lemma has_char_append (c : ascii) (a b : string) :
  has_char c (a ++ b) = has_char c a || has_char c b.
Proof.
  induction a as [|x a IH]; simpl; [reflexivity |].
  now rewrite IH, orb_assoc.
Qed.

(** Splitting at the first separator. *)
Lemma split_at_first (c : ascii) (a a' r r' : string) :
  has_char c a = false -> has_char c a' = false ->
  (a ++ String c r)%string = (a' ++ String c r')%string ->
  a = a' /\ r = r'.
Proof.
  revert a'. induction a as [|x a IH]; intros [|x' a'] Ha Ha' H;
    simpl in *.
  - injection H as H. now split.
  - injection H as <- _. now rewrite Ascii.eqb_refl in Ha'.
  - injection H as -> _. now rewrite Ascii.eqb_refl in Ha.
  - injection H as -> H.
    apply orb_false_elim in Ha as [_ Ha].
    apply orb_false_elim in Ha' as [_ Ha'].
    destruct (IH a' Ha Ha' H) as [-> ->]. now split.
Qed.

(** Splitting at the last separator. *)
Lemma split_at_last (c : ascii) (x x' b b' : string) :
  has_char c b = false -> has_char c b' = false ->
  (x ++ String c b)%string = (x' ++ String c b')%string ->
  x = x' /\ b = b'.
Proof.
  intros Hb Hb'. revert x'.
  induction x as [|y x IH]; intros [|y' x'] H; simpl in H.
  - injection H as H. now split.
  - injection H as _ H. subst b.
    rewrite has_char_append in Hb. simpl in Hb.
    rewrite Ascii.eqb_refl in Hb. simpl in Hb.
    now rewrite orb_true_r in Hb.
  - injection H as _ H. subst b'.
    rewrite has_char_append in Hb'. simpl in Hb'.
    rewrite Ascii.eqb_refl in Hb'. simpl in Hb'.
    now rewrite orb_true_r in Hb'.
  - injection H as -> H.
    destruct (IH x' H) as [-> ->]. now split.
Qed.

(** ** [str(int)] *)

Lemma to_int_not_nil (z : Z) :
  Z.to_int z <> Decimal.Pos Decimal.Nil /\ Z.to_int z <> Decimal.Neg Decimal.Nil.
Proof.
  destruct z as [|q|q]; simpl; split; try discriminate;
    intros [= H]; now apply (DecimalPos.Unsigned.to_uint_nonnil q).
Qed.

Lemma str_int_inj (z z' : Z) : str_int z = str_int z' -> z = z'.
Proof.
  unfold str_int. intros H.
  apply DecimalZ.to_int_inj.
  assert (Some (Z.to_int z) = Some (Z.to_int z')) as [= E]; [| exact E].
  destruct (to_int_not_nil z) as [A B], (to_int_not_nil z') as [A' B'].
  rewrite <- (NilZero.isi _ A B), <- (NilZero.isi _ A' B').
  now rewrite H.
Qed.

Lemma string_of_uint_no_colon (d : Decimal.uint) :
  has_char ":" (NilEmpty.string_of_uint d) = false.
Proof.
  induction d; simpl; auto.
Qed.

Lemma str_int_no_colon (z : Z) : has_char ":" (str_int z) = false.
Proof.
  unfold str_int, NilZero.string_of_int, NilZero.string_of_uint.
  destruct (Z.to_int z) as [d|d]; destruct d; simpl;
    auto using string_of_uint_no_colon.
Qed.

(** ** The shape of an MD5 digest *)

Module MD5Facts.
Import MD5.
Local Open Scope Z_scope.

Lemma land_255_range (x : Z) : 0 <= Z.land x 0xFF < 256.
Proof.
  change 0xFF with (Z.ones 8). rewrite Z.land_ones by lia.
  change (2 ^ 8) with 256. apply Z.mod_pos_bound. lia.
Qed.

Lemma le_bytes_length (n : nat) (x : Z) : List.length (le_bytes n x) = n.
Proof.
  unfold le_bytes. now rewrite length_map, length_seq.
Qed.

Lemma le_bytes_range (n : nat) (x : Z) :
  Forall (fun b => 0 <= b < 256) (le_bytes n x).
Proof.
  unfold le_bytes. apply Forall_forall. intros b Hb.
  apply in_map_iff in Hb as (k & <- & _). apply land_255_range.
Qed.

Lemma digest_length (msg : list Byte.byte) : List.length (digest msg) = 16%nat.
Proof.
  unfold digest. destruct (digest_words msg) as [[[a b] c] d].
  now rewrite !length_app, !le_bytes_length.
Qed.

Lemma digest_range (msg : list Byte.byte) :
  Forall (fun b => 0 <= b < 256) (digest msg).
Proof.
  unfold digest. destruct (digest_words msg) as [[[a b] c] d].
  repeat (apply Forall_app; split); apply le_bytes_range.
Qed.

Lemma hex_bytes_length (l : list Z) :
  String.length (hex_bytes l) = (2 * List.length l)%nat.
Proof.
  induction l as [|x l IH]; simpl; [reflexivity | rewrite IH; lia].
Qed.

(** Cutting the hex string after [2 n] characters keeps [n] bytes. *)
Lemma substring_hex_bytes (n : nat) (l : list Z) :
  substring 0 (2 * n) (hex_bytes l) = hex_bytes (firstn n l).
Proof.
  revert l. induction n as [|n IH]; intros [|x l].
  - reflexivity.
  - reflexivity.
  - reflexivity.
  - replace (2 * S n)%nat with (S (S (2 * n))) by lia.
    cbn [hex_bytes firstn hex_byte append substring].
    now rewrite IH.
Qed.

Lemma hex_digit_in (x : Z) : In (hex_digit x) hex_digits.
Proof.
  unfold hex_digit.
  destruct (nth_in_or_default (Z.to_nat x) hex_digits "0"%char) as [H | ->].
  - exact H.
  - now left.
Qed.

Lemma hex_bytes_chars (l : list Z) :
  Forall (fun c => In c hex_digits) (list_ascii_of_string (hex_bytes l)).
Proof.
  induction l as [|x l IH]; simpl; [constructor |].
  constructor; [apply hex_digit_in |].
  constructor; [apply hex_digit_in | exact IH].
Qed.

Lemma hex_digits_nodup : NoDup hex_digits.
Proof.
  unfold hex_digits.
  repeat (constructor; [simpl; intuition discriminate |]). constructor.
Qed.

Lemma hex_digit_inj (a b : Z) :
  0 <= a < 16 -> 0 <= b < 16 -> hex_digit a = hex_digit b -> a = b.
Proof.
  intros Ha Hb H. unfold hex_digit in H.
  apply (proj1 (NoDup_nth hex_digits "0"%char) hex_digits_nodup) in H.
  - lia.
  - simpl. lia.
  - simpl. lia.
Qed.

Lemma hex_byte_inj (x y : Z) :
  0 <= x < 256 -> 0 <= y < 256 -> hex_byte x = hex_byte y -> x = y.
Proof.
  intros Hx Hy H. unfold hex_byte in H. injection H as Hhi Hlo.
  rewrite !Z.shiftr_div_pow2 in Hhi by lia.
  change 0xF with (Z.ones 4) in Hlo. rewrite !Z.land_ones in Hlo by lia.
  change (2 ^ 4) with 16 in *.
  apply hex_digit_inj in Hhi;
    [| split; [apply Z.div_pos; lia | apply Z.div_lt_upper_bound; lia] ..].
  apply hex_digit_inj in Hlo; [| apply Z.mod_pos_bound; lia ..].
  rewrite (Z.div_mod x 16), (Z.div_mod y 16) by lia. lia.
Qed.

(** The hex encoding loses nothing: equal encodings of byte lists of the
    same length come from equal lists. *)
Lemma hex_bytes_inj (l l' : list Z) :
  Forall (fun b => 0 <= b < 256) l -> Forall (fun b => 0 <= b < 256) l' ->
  List.length l = List.length l' ->
  hex_bytes l = hex_bytes l' -> l = l'.
Proof.
  intros Hl. revert l'. induction Hl as [|x l Hx Hl IH];
    intros [|y l'] Hl' Hlen H; try discriminate; [reflexivity |].
  inversion Hl' as [|? ? Hy Hl'']; subst.
  cbn [hex_bytes hex_byte append] in H. injection H as Hhi Hlo Hrest.
  f_equal.
  - apply hex_byte_inj; try assumption. unfold hex_byte. now rewrite Hhi, Hlo.
  - apply IH; auto.
Qed.

End MD5Facts.

(** [Utf8.decode] accepts well-formed text and rejects a lone continuation
    byte, an overlong form and a surrogate. *)
Example utf8_decode_samples :
  Utf8.decode [Byte.x63; Byte.xc3; Byte.xa9] <> None
  /\ Utf8.decode [Byte.x80] = None
  /\ Utf8.decode [Byte.xc0; Byte.xaf] = None
  /\ Utf8.decode [Byte.xed; Byte.xa0; Byte.x80] = None.
Proof. repeat split; vm_compute; congruence. Qed.

(** The embedding of [hashlib.md5] agrees with the RFC 1321 test suite. *)
Example md5_rfc1321_vectors :
  MD5.hexdigest (list_byte_of_string "") = "d41d8cd98f00b204e9800998ecf8427e"
  /\ MD5.hexdigest (list_byte_of_string "a") = "0cc175b9c0f1b6a831c399e269772661"
  /\ MD5.hexdigest (list_byte_of_string "abc")
     = "900150983cd24fb0d6963f7d28e17f72"
  /\ MD5.hexdigest (list_byte_of_string "message digest")
     = "f96b697d7cb7938d525a2f31aaf161d0"
  /\ MD5.hexdigest
       (list_byte_of_string
          "12345678901234567890123456789012345678901234567890123456789012345678901234567890")
     = "57edf4a22be3c955ac49da2e2107b67a".
Proof. repeat split; vm_compute; reflexivity. Qed.

(** ** The identifier assigner *)

Lemma generate_id_hex (k p n : string) (l : Z) :
  generate_id k p n l = MD5.hex_bytes (id_bits k p n l).
Proof.
  unfold generate_id, id_bits, MD5.hexdigest.
  exact (MD5Facts.substring_hex_bytes 8 _).
Qed.

Lemma id_bits_length (k p n : string) (l : Z) :
  List.length (id_bits k p n l) = 8.
Proof.
  unfold id_bits. rewrite length_firstn, MD5Facts.digest_length. reflexivity.
Qed.

Lemma id_bits_range (k p n : string) (l : Z) :
  Forall (fun b => (0 <= b < 256)%Z) (id_bits k p n l).
Proof.
  unfold id_bits. apply Forall_forall. intros b Hb.
  pose proof (MD5Facts.digest_range
                (list_byte_of_string (id_content k p n l))) as H.
  rewrite Forall_forall in H. apply H.
  rewrite <- (firstn_skipn 8). apply in_or_app. now left.
Qed.

(** The separator is not escaped: a field that contains it can trade
    characters with its neighbour without changing the hashed string. *)
Remark id_content_separator_shift :
  id_content "file" "a:b" "c" 0 = id_content "file" "a" "b:c" 0.
Proof. reflexivity. Qed.

(** The hashed string determines the four inputs as soon as the kind and
    the name are free of the separator. *)
Lemma id_content_inj (k p n k' p' n' : string) (l l' : Z) :
  has_char ":" k = false -> has_char ":" n = false ->
  has_char ":" k' = false -> has_char ":" n' = false ->
  id_content k p n l = id_content k' p' n' l' ->
  k = k' /\ p = p' /\ n = n' /\ l = l'.
Proof.
  intros Hk Hn Hk' Hn' H. unfold id_content in H.
  change (":" ++ ?x)%string with (String ":" x) in H.
  apply split_at_first in H as [-> H]; try assumption.
  assert ((p ++ String ":" n) ++ String ":" (str_int l)
          = (p' ++ String ":" n') ++ String ":" (str_int l'))%string as H2.
  { rewrite !append_assoc. exact H. }
  apply split_at_last in H2 as [H2 Hl]; try apply str_int_no_colon.
  apply split_at_last in H2 as [-> ->]; try assumption.
  apply str_int_inj in Hl. now subst.
Qed.

(** The string of a non-empty path ends with its last component, after
    nothing or after a directory prefix that ends with a slash. *)
Lemma path_str_name (p : Path) :
  p <> [] ->
  path_str p = path_name p
  \/ exists dir, path_str p = (dir ++ String "/" (path_name p))%string.
Proof.
  unfold path_str, path_name.
  induction p as [|x p IH]; [congruence |]. intros _.
  destruct p as [|y p]; [now left |]. right.
  change (String.concat "/" (x :: y :: p))
    with (x ++ String "/" (String.concat "/" (y :: p)))%string.
  change (last (x :: y :: p) "") with (last (y :: p) "").
  destruct IH as [E | (dir & E)]; [discriminate | |].
  - exists x. now rewrite E.
  - exists (x ++ String "/" dir)%string.
    rewrite E, append_assoc. reflexivity.
Qed.

Lemma append_same_length (a a' x y : string) :
  String.length a = String.length a' ->
  (a ++ x)%string = (a' ++ y)%string -> a = a'.
Proof.
  revert a'. induction a as [|c a IH]; intros [|c' a'] Hl H;
    try discriminate; [reflexivity |].
  simpl in *. injection H as -> H. f_equal. apply IH; [lia | exact H].
Qed.

Lemma doubled_name_inj (n n' : string) :
  (n ++ String ":" n)%string = (n' ++ String ":" n')%string -> n = n'.
Proof.
  intros H. apply (append_same_length _ _ _ _) in H; [exact H |].
  apply (f_equal String.length) in H.
  rewrite !length_append in H. simpl in H. lia.
Qed.

(** File nodes: the name is the last component of the path, so the hashed
    string determines the path even when components contain the
    separator. *)
Lemma file_id_content_inj (p q : Path) :
  p <> [] -> q <> [] ->
  has_char "/" (path_name p) = false -> has_char "/" (path_name q) = false ->
  id_content "file" (path_str p) (path_name p) 0
  = id_content "file" (path_str q) (path_name q) 0 ->
  path_str p = path_str q /\ path_name p = path_name q.
Proof.
  intros Hp Hq Hn Hn' H. unfold id_content in H.
  apply append_inv_head in H. apply append_inv_head in H.
  change (":" ++ ?x)%string with (String ":" x) in H.
  assert ((path_str p ++ String ":" (path_name p))
          = (path_str q ++ String ":" (path_name q)))%string as H2.
  { apply (append_inv_tail (String ":" (str_int 0))).
    rewrite !append_assoc. exact H. }
  clear H.
  assert (forall n, has_char "/" n = false ->
                    has_char "/" (n ++ String ":" n) = false) as Hdouble.
  { intros n E. rewrite has_char_append. simpl. now rewrite E. }
  destruct (path_str_name p Hp) as [E | (d & E)];
    destruct (path_str_name q Hq) as [E' | (d' & E')];
    rewrite E, E' in *.
  - apply doubled_name_inj in H2. now rewrite H2.
  - exfalso. rewrite append_assoc in H2.
    apply (f_equal (has_char "/")) in H2.
    rewrite (Hdouble _ Hn), has_char_append in H2. simpl in H2.
    now rewrite orb_true_r in H2.
  - exfalso. rewrite append_assoc in H2.
    apply (f_equal (has_char "/")) in H2.
    rewrite (Hdouble _ Hn'), has_char_append in H2. simpl in H2.
    now rewrite orb_true_r in H2.
  - rewrite !append_assoc in H2.
    change (String "/" ?a ++ ?b)%string with (String "/" (a ++ b)) in H2.
    apply split_at_last in H2 as [-> H2]; auto.
    apply doubled_name_inj in H2. now rewrite H2.
Qed.

(** C1. [generate_id] is a function of (kind, path, name, start line)
    alone: the hashed string is the four inputs joined with [":"], the id is
    the lower-case hex encoding of the first 64 bits of its 128-bit MD5
    digest and so has 16 hex characters; equal inputs give equal ids;
    changing one input, or any inputs when kind and name are free of the
    separator, changes the hashed string; and two ids are equal exactly
    when the first 64 digest bits of the two hashed strings are. *)
Theorem generate_id_deterministic (k p n : string) (l : Z) :
  let content := id_content k p n l in
  let digest := MD5.digest (list_byte_of_string content) in
  content = (k ++ ":" ++ p ++ ":" ++ n ++ ":" ++ str_int l)%string
  /\ List.length digest = 16
  /\ Forall (fun b => (0 <= b < 256)%Z) digest
  /\ generate_id k p n l
     = substring 0 16 (MD5.hexdigest (list_byte_of_string content))
  /\ generate_id k p n l = MD5.hex_bytes (firstn 8 digest)
  /\ String.length (generate_id k p n l) = 16
  /\ Forall (fun c => In c MD5.hex_digits)
            (list_ascii_of_string (generate_id k p n l))
  /\ (forall k' p' n' l',
         k' = k -> p' = p -> n' = n -> l' = l ->
         generate_id k' p' n' l' = generate_id k p n l)
  /\ (forall k', k' <> k -> id_content k' p n l <> content)
  /\ (forall p', p' <> p -> id_content k p' n l <> content)
  /\ (forall n', n' <> n -> id_content k p n' l <> content)
  /\ (forall l', l' <> l -> id_content k p n l' <> content)
  /\ (forall k' p' n' l',
         has_char ":" k = false -> has_char ":" n = false ->
         has_char ":" k' = false -> has_char ":" n' = false ->
         (k', p', n', l') <> (k, p, n, l) ->
         id_content k' p' n' l' <> content)
  /\ (forall k' p' n' l',
         generate_id k' p' n' l' = generate_id k p n l
         <-> id_bits k' p' n' l' = id_bits k p n l).
Proof.
  cbn zeta.
  split; [reflexivity |].
  split; [apply MD5Facts.digest_length |].
  split; [apply MD5Facts.digest_range |].
  split; [reflexivity |].
  split; [apply generate_id_hex |].
  split.
  { rewrite generate_id_hex, MD5Facts.hex_bytes_length, id_bits_length.
    reflexivity. }
  split; [rewrite generate_id_hex; apply MD5Facts.hex_bytes_chars |].
  split; [intros; subst; reflexivity |].
  split.
  { intros k' Hne H. apply Hne. unfold id_content in H.
    now apply append_inv_tail in H. }
  split.
  { intros p' Hne H. apply Hne. unfold id_content in H.
    apply append_inv_head in H. apply append_inv_head in H.
    now apply append_inv_tail in H. }
  split.
  { intros n' Hne H. apply Hne. unfold id_content in H.
    do 4 apply append_inv_head in H.
    now apply append_inv_tail in H. }
  split.
  { intros l' Hne H. apply Hne. unfold id_content in H.
    do 6 apply append_inv_head in H.
    now apply str_int_inj. }
  split.
  { intros k' p' n' l' Hk Hn Hk' Hn' Hne H. apply Hne.
    apply id_content_inj in H as (-> & -> & -> & ->); auto. }
  intros k' p' n' l'. rewrite !generate_id_hex. split.
  - apply MD5Facts.hex_bytes_inj; auto using id_bits_range.
    now rewrite !id_bits_length.
  - now intros ->.
Qed.

Lemma generate_id_deterministic_witness :
  generate_id "file" "a.py" "a.py" 0 = "dc2ede24cc78fabc"
  /\ generate_id "file" "a.py" "a.py" 0 = generate_id "file" "a.py" "a.py" 0
  /\ id_content "class" "a.py" "a.py" 0 <> id_content "file" "a.py" "a.py" 0
  /\ id_content "file" "b.py" "a.py" 0 <> id_content "file" "a.py" "a.py" 0
  /\ id_content "file" "a.py" "b.py" 0 <> id_content "file" "a.py" "a.py" 0
  /\ id_content "file" "a.py" "a.py" 1 <> id_content "file" "a.py" "a.py" 0
  /\ id_content "class" "b.py" "C" 3 <> id_content "file" "a.py" "a.py" 0.
Proof.
  destruct (generate_id_deterministic "file" "a.py" "a.py" 0)
    as (_ & _ & _ & _ & _ & _ & _ & Hdet & Hk & Hp & Hn & Hl & Hall & _).
  split; [vm_compute; reflexivity |].
  split; [apply Hdet; reflexivity |].
  split; [apply Hk; discriminate |].
  split; [apply Hp; discriminate |].
  split; [apply Hn; discriminate |].
  split; [apply Hl; discriminate |].
  apply Hall; try reflexivity; discriminate.
Defined.

(** ** Dictionaries *)

Module DictFacts.
Section Facts.
Context {V : Type}.
Implicit Types (d : Dict.t V) (k : string) (v : V).

Lemma get_set d k v k' default :
  Dict.get (Dict.set d k v) k' default
  = if String.eqb k k' then v else Dict.get d k' default.
Proof.
  induction d as [|[k0 v0] d IH]; simpl.
  - reflexivity.
  - destruct (String.eqb_spec k0 k) as [-> | Hne]; simpl.
    + destruct (String.eqb k k'); reflexivity.
    + rewrite IH. destruct (String.eqb_spec k0 k') as [-> | Hne'].
      * apply String.eqb_neq in Hne. rewrite String.eqb_sym in Hne.
        now rewrite Hne.
      * reflexivity.
Qed.

Lemma keys_set d k v :
  Dict.keys (Dict.set d k v)
  = if Dict.mem d k then Dict.keys d else Dict.keys d ++ [k].
Proof.
  unfold Dict.mem, Dict.keys.
  induction d as [|[k0 v0] d IH]; simpl.
  - reflexivity.
  - rewrite (String.eqb_sym k k0).
    destruct (String.eqb k0 k); simpl; [reflexivity |].
    rewrite IH. now destruct (existsb (String.eqb k) (map fst d)).
Qed.

Lemma mem_in d k : Dict.mem d k = true <-> In k (Dict.keys d).
Proof.
  unfold Dict.mem. rewrite existsb_exists. split.
  - intros (x & Hx & E). apply String.eqb_eq in E. now subst.
  - intros H. exists k. split; [exact H | apply String.eqb_refl].
Qed.

Lemma mem_set d k v k' :
  Dict.mem (Dict.set d k v) k' = Dict.mem d k' || String.eqb k' k.
Proof.
  unfold Dict.mem at 1. rewrite keys_set.
  destruct (Dict.mem d k) eqn:E.
  - fold (Dict.mem d k').
    destruct (String.eqb_spec k' k) as [-> |]; [| now rewrite orb_false_r].
    now rewrite E.
  - rewrite existsb_app. simpl. now rewrite orb_false_r.
Qed.

(** A dictionary without repeated keys is the table of its [get]. *)
Lemma items_get d default :
  NoDup (Dict.keys d) ->
  Dict.items d = map (fun k => (k, Dict.get d k default)) (Dict.keys d).
Proof.
  unfold Dict.items, Dict.keys.
  induction d as [|[k0 v0] d IH]; simpl; intros H; [reflexivity |].
  inversion H as [|? ? Hnotin Hnd]; subst.
  rewrite String.eqb_refl. f_equal.
  etransitivity; [apply IH; assumption |].
  apply map_ext_in. intros k Hk.
  destruct (String.eqb_spec k0 k) as [-> |]; [contradiction | reflexivity].
Qed.
End Facts.
End DictFacts.

(** ** Counting with [bump] *)

Lemma filter_filter_and {A : Type} (f g : A -> bool) (l : list A) :
  filter f (filter g l) = filter (fun x => f x && g x) l.
Proof.
  induction l as [|x l IH]; simpl; [reflexivity |].
  destruct (g x); simpl; rewrite ?andb_true_r, ?andb_false_r.
  - destruct (f x); now rewrite IH.
  - exact IH.
Qed.

Lemma first_seen_in (l : list string) (k : string) :
  In k (first_seen l) <-> In k l.
Proof.
  induction l as [|x l IH]; simpl; [tauto |].
  rewrite filter_In, IH.
  destruct (String.eqb_spec k x) as [-> |]; simpl; intuition congruence.
Qed.

Lemma first_seen_nodup (l : list string) : NoDup (first_seen l).
Proof.
  induction l as [|x l IH]; simpl; constructor.
  - rewrite filter_In. intros [_ H]. now rewrite String.eqb_refl in H.
  - now apply NoDup_filter.
Qed.

Lemma get_bump (d : Dict.t nat) (x k : string) :
  Dict.get (bump d x) k 0
  = Dict.get d k 0 + (if String.eqb x k then 1 else 0).
Proof.
  unfold bump. rewrite DictFacts.get_set.
  destruct (String.eqb_spec x k) as [-> |]; lia.
Qed.

Lemma get_fold_bump (ks : list string) (d : Dict.t nat) (k : string) :
  Dict.get (fold_left bump ks d) k 0
  = Dict.get d k 0 + count_occ string_dec ks k.
Proof.
  revert d. induction ks as [|x ks IH]; intros d; simpl; [lia |].
  rewrite IH, get_bump.
  destruct (String.eqb_spec x k) as [-> | Hne];
    destruct (string_dec _ k); try congruence; lia.
Qed.

Lemma keys_fold_bump (ks : list string) (d : Dict.t nat) :
  Dict.keys (fold_left bump ks d)
  = Dict.keys d ++ filter (fun k => negb (Dict.mem d k)) (first_seen ks).
Proof.
  revert d. induction ks as [|x ks IH]; intros d; simpl fold_left.
  - simpl. now rewrite app_nil_r.
  - rewrite IH. cbn [first_seen filter]. rewrite filter_filter_and.
    assert (filter (fun k => negb (Dict.mem (bump d x) k)) (first_seen ks)
            = filter (fun k => negb (Dict.mem d k) && negb (String.eqb k x))
                     (first_seen ks)) as ->.
    { apply filter_ext. intros k. unfold bump.
      now rewrite DictFacts.mem_set, negb_orb. }
    unfold bump. rewrite DictFacts.keys_set.
    destruct (Dict.mem d x); simpl; [reflexivity |].
    now rewrite <- app_assoc.
Qed.

Lemma connectivity_fold (es : list Edge.t) (d : Dict.t nat) :
  fold_left (fun connectivity edge =>
               bump (bump connectivity (Edge.source edge)) (Edge.target edge))
            es d
  = fold_left bump (endpoints es) d.
Proof.
  revert d. induction es as [|e es IH]; intros d; simpl; [reflexivity |].
  apply IH.
Qed.

(** The connectivity mapping lists every edge endpoint once, in discovery
    order, with the number of times it occurs as an endpoint. *)
Lemma connectivity_items (es : list Edge.t) :
  Dict.items (connectivity_of es)
  = map (fun k => (k, count_occ string_dec (endpoints es) k))
        (first_seen (endpoints es)).
Proof.
  unfold connectivity_of. rewrite connectivity_fold.
  assert (Dict.keys (fold_left bump (endpoints es) Dict.empty)
          = first_seen (endpoints es)) as Hk.
  { rewrite keys_fold_bump. simpl.
    induction (first_seen (endpoints es)) as [|x l IH]; simpl;
      [reflexivity | now rewrite IH]. }
  rewrite (DictFacts.items_get _ 0) by (rewrite Hk; apply first_seen_nodup).
  rewrite Hk. apply map_ext. intros k.
  now rewrite get_fold_bump.
Qed.

(** ** [sorted(..., reverse=True)] *)

Section SortedFacts.
Context {A : Type} (key : A -> nat).

Lemma insert_desc_perm (x : A) (l : list A) :
  Permutation (insert_desc key x l) (x :: l).
Proof.
  induction l as [|y l IH]; simpl; [reflexivity |].
  destruct (key y <=? key x)%nat; [reflexivity |].
  rewrite IH. apply perm_swap.
Qed.

Lemma sorted_reverse_perm (l : list A) : Permutation (sorted_reverse key l) l.
Proof.
  induction l as [|x l IH]; simpl; [reflexivity |].
  rewrite insert_desc_perm. now constructor.
Qed.

Lemma insert_desc_sorted (x : A) (l : list A) :
  StronglySorted (fun a b => key b <= key a) l ->
  StronglySorted (fun a b => key b <= key a) (insert_desc key x l).
Proof.
  induction 1 as [|y l Hs IH Hy]; simpl.
  - repeat constructor.
  - destruct (Nat.leb_spec (key y) (key x)) as [Hle | Hlt].
    + constructor; [now constructor |].
      constructor; [exact Hle |].
      eapply Forall_impl; [| exact Hy]. simpl. intros; lia.
    + constructor; [exact IH |].
      eapply Permutation_Forall; [symmetry; apply insert_desc_perm |].
      constructor; [lia | exact Hy].
Qed.

Lemma sorted_reverse_sorted (l : list A) :
  StronglySorted (fun a b => key b <= key a) (sorted_reverse key l).
Proof.
  induction l as [|x l IH]; simpl; [constructor |].
  now apply insert_desc_sorted.
Qed.

Lemma insert_desc_filter (c : nat) (x : A) (l : list A) :
  filter (fun a => key a =? c) (insert_desc key x l)
  = filter (fun a => key a =? c) (x :: l).
Proof.
  induction l as [|y l IH]; [reflexivity |].
  cbn [insert_desc].
  destruct (Nat.leb_spec (key y) (key x)) as [Hle | Hlt]; [reflexivity |].
  cbn [filter] in *. rewrite IH.
  destruct (Nat.eqb_spec (key x) c), (Nat.eqb_spec (key y) c);
    try reflexivity; lia.
Qed.

(** Stability: elements with the same key keep their relative order. *)
Lemma sorted_reverse_stable (c : nat) (l : list A) :
  filter (fun a => key a =? c) (sorted_reverse key l)
  = filter (fun a => key a =? c) l.
Proof.
  induction l as [|x l IH]; [reflexivity |].
  cbn [sorted_reverse]. rewrite insert_desc_filter.
  cbn [filter]. now rewrite IH.
Qed.
End SortedFacts.

(** ** The statistics engine *)

Lemma get_statistics_run (w : World) :
  get_statistics w
  = (inr (Stats.mk
            (fold_left (fun d node => bump d (Node.type node))
                       (nodes (self w)) Dict.empty)
            (fold_left (fun d edge => bump d (Edge.type edge))
                       (edges (self w)) Dict.empty)
            (resolve_top (nodes (self w))
               (firstn 5 (sorted_reverse snd
                            (Dict.items (connectivity_of (edges (self w)))))))),
     w).
Proof. reflexivity. Qed.

Lemma lookup_node_none (ns : list Node.t) (k : string) :
  lookup_node ns k = None <-> ~ In k (map Node.id ns).
Proof.
  unfold lookup_node. induction ns as [|n ns IH]; simpl; [tauto |].
  destruct (String.eqb_spec (Node.id n) k) as [-> | Hne].
  - split; [discriminate | tauto].
  - rewrite IH. tauto.
Qed.

Lemma resolves_false (ns : list Node.t) (ic : string * nat) :
  resolves ns ic = false <-> ~ In (fst ic) (map Node.id ns).
Proof.
  unfold resolves. rewrite <- lookup_node_none.
  destruct (lookup_node ns (fst ic)); split; congruence.
Qed.

(** Resolution drops the ids that name no node and keeps the others in
    order. *)
Lemma resolve_top_spec (ns : list Node.t) (top : list (string * nat)) :
  Forall2 (resolved_as ns) (filter (resolves ns) top) (resolve_top ns top).
Proof.
  induction top as [|[k c] top IH]; simpl; [constructor |].
  unfold resolves at 1. simpl.
  destruct (lookup_node ns k) as [n|] eqn:E; [| exact IH].
  constructor; [| exact IH].
  exists n. split; [exact E | reflexivity].
Qed.

Lemma filter_all {A : Type} (f : A -> bool) (l : list A) :
  (forall x, In x l -> f x = true) -> filter f l = l.
Proof.
  induction l as [|x l IH]; simpl; intros H; [reflexivity |].
  rewrite (H x) by now left. f_equal. apply IH. intros; apply H; now right.
Qed.

Lemma in_firstn {A : Type} (n : nat) (l : list A) (x : A) :
  In x (firstn n l) -> In x l.
Proof.
  intros H. rewrite <- (firstn_skipn n l). apply in_or_app. now left.
Qed.

Lemma connectivity_keys (es : list Edge.t) (k : string) :
  In k (Dict.keys (connectivity_of es)) <-> In k (endpoints es).
Proof.
  unfold Dict.keys. fold (Dict.items (connectivity_of es)).
  rewrite connectivity_items, map_map. simpl. rewrite map_id.
  apply first_seen_in.
Qed.

(** C4. [top_connected] is the connectivity mapping (every edge endpoint
    once, in discovery order, with its number of incident edge ends) sorted
    by count in descending order by a stable sort, cut to its first five
    items, each item resolved to the name, type and path of the first node
    with that id; an item whose id names no node contributes no entry, so
    with no dangling endpoint the entries are exactly the first five ranked
    items. *)
Theorem top_connected_ranking (w : World) :
  let g := self w in
  let connectivity := connectivity_of (edges g) in
  let ranked := sorted_reverse snd (Dict.items connectivity) in
  exists stats,
    get_statistics w = (inr stats, w)
    /\ Dict.items connectivity
       = map (fun k => (k, count_occ string_dec (endpoints (edges g)) k))
             (first_seen (endpoints (edges g)))
    /\ Permutation ranked (Dict.items connectivity)
    /\ StronglySorted (fun a b => snd b <= snd a) ranked
    /\ (forall c, filter (fun x => snd x =? c) ranked
                  = filter (fun x => snd x =? c) (Dict.items connectivity))
    /\ Forall2 (resolved_as (nodes g))
               (filter (resolves (nodes g)) (firstn 5 ranked))
               (Stats.top_connected stats)
    /\ List.length (Stats.top_connected stats) <= 5
    /\ ((forall k, In k (endpoints (edges g)) -> In k (map Node.id (nodes g))) ->
        Forall2 (resolved_as (nodes g)) (firstn 5 ranked)
                (Stats.top_connected stats)
        /\ List.length (Stats.top_connected stats)
           = Nat.min 5 (List.length (first_seen (endpoints (edges g))))).
Proof.
  intros g connectivity ranked.
  eexists. split; [apply get_statistics_run |]. cbn [Stats.top_connected].
  fold g. fold connectivity. fold ranked.
  pose proof (resolve_top_spec (nodes g) (firstn 5 ranked)) as Hres.
  assert (Permutation ranked (Dict.items connectivity)) as Hperm
      by apply sorted_reverse_perm.
  split; [apply connectivity_items |].
  split; [exact Hperm |].
  split; [apply sorted_reverse_sorted |].
  split; [intros c; apply sorted_reverse_stable |].
  split; [exact Hres |].
  split.
  { apply Forall2_length in Hres. rewrite <- Hres.
    etransitivity; [apply filter_length_le |].
    rewrite length_firstn. apply Nat.le_min_l. }
  intros Hnd.
  assert (filter (resolves (nodes g)) (firstn 5 ranked) = firstn 5 ranked)
    as Hall.
  { apply filter_all. intros [k c] Hin.
    destruct (resolves (nodes g) (k, c)) eqn:E; [reflexivity |].
    apply resolves_false in E. exfalso. apply E. apply Hnd. simpl.
    apply connectivity_keys. apply in_firstn in Hin.
    apply (Permutation_in _ Hperm) in Hin.
    unfold Dict.keys. apply in_map_iff. now exists (k, c). }
  rewrite Hall in Hres. split; [exact Hres |].
  apply Forall2_length in Hres. rewrite <- Hres, length_firstn.
  f_equal. rewrite (Permutation_length Hperm).
  unfold connectivity. rewrite connectivity_items. apply length_map.
Qed.

Lemma top_connected_ranking_witness :
  exists stats,
    get_statistics (mkWorld sample_graph []) = (inr stats, mkWorld sample_graph [])
    /\ List.length (Stats.top_connected stats) = 3.
Proof.
  destruct (top_connected_ranking (mkWorld sample_graph []))
    as (stats & Hrun & _ & _ & _ & _ & _ & _ & Hnd).
  exists stats. split; [exact Hrun |].
  destruct Hnd as [_ Hlen]; [| exact Hlen].
  simpl. intros k Hk. intuition auto.
Defined.

(** C5. For the graph with nodes F (file), A (class), B (function) and
    edges F->A, F->B of type contains, the report has
    node_types = {file: 1, class: 1, function: 1},
    edge_types = {contains: 2}, connectivity 2 for F and 1 for A and for B,
    and top_connected lists F first (then A and B). *)
Theorem statistics_worked_example (F A B : Node.t) (g : Generator)
        (err : list ErrLine) :
  Node.type F = "file" -> Node.type A = "class" -> Node.type B = "function" ->
  Node.id F <> Node.id A -> Node.id F <> Node.id B -> Node.id A <> Node.id B ->
  nodes g = [F; A; B] ->
  edges g = [ Edge.mk (Node.id F) (Node.id A) "contains";
              Edge.mk (Node.id F) (Node.id B) "contains" ] ->
  get_statistics (mkWorld g err)
  = (inr (Stats.mk [("file", 1); ("class", 1); ("function", 1)]
                   [("contains", 2)]
                   [entry_of F 2; entry_of A 1; entry_of B 1]),
     mkWorld g err)
  /\ connectivity_of (edges g)
     = [(Node.id F, 2); (Node.id A, 1); (Node.id B, 1)].
Proof.
  intros HF HA HB Hfa Hfb Hab Hn He.
  assert (String.eqb (Node.id F) (Node.id A) = false) as E1
      by now apply String.eqb_neq.
  assert (String.eqb (Node.id F) (Node.id B) = false) as E2
      by now apply String.eqb_neq.
  assert (String.eqb (Node.id A) (Node.id B) = false) as E3
      by now apply String.eqb_neq.
  assert (String.eqb (Node.id A) (Node.id F) = false) as E4
      by (rewrite String.eqb_sym; exact E1).
  assert (String.eqb (Node.id B) (Node.id F) = false) as E5
      by (rewrite String.eqb_sym; exact E2).
  assert (String.eqb (Node.id B) (Node.id A) = false) as E6
      by (rewrite String.eqb_sym; exact E3).
  assert (connectivity_of (edges g)
          = [(Node.id F, 2); (Node.id A, 1); (Node.id B, 1)]) as Hc.
  { rewrite He. unfold connectivity_of, bump. cbn.
    rewrite ?String.eqb_refl, ?E1, ?E2, ?E3. cbn.
    rewrite ?String.eqb_refl, ?E1, ?E2, ?E3. cbn.
    rewrite ?String.eqb_refl, ?E1, ?E2, ?E3. reflexivity. }
  split; [| exact Hc].
  rewrite get_statistics_run. cbn [self]. rewrite Hc, Hn, He.
  unfold bump, lookup_node, entry_of. cbn. rewrite HF, HA, HB. cbn.
  rewrite ?String.eqb_refl, ?E1, ?E2, ?E3, ?E4, ?E5, ?E6.
  rewrite ?HF, ?HA, ?HB. reflexivity.
Qed.

Lemma statistics_worked_example_witness :
  get_statistics (mkWorld sample_graph [])
  = (inr (Stats.mk [("file", 1); ("class", 1); ("function", 1)]
                   [("contains", 2)]
                   [ Stats.mkEntry "mod.py" "file" "pkg/mod.py" 2;
                     Stats.mkEntry "Alpha" "class" "pkg/mod.py" 1;
                     Stats.mkEntry "beta" "function" "pkg/mod.py" 1 ]),
     mkWorld sample_graph [])
  /\ connectivity_of (edges sample_graph) = [("F", 2); ("A", 1); ("B", 1)].
Proof.
  apply (statistics_worked_example
           (sample_node "F" "file" "mod.py")
           (sample_node "A" "class" "Alpha")
           (sample_node "B" "function" "beta")
           sample_graph []);
    try reflexivity; discriminate.
Defined.

(** C9. [get_statistics] is read-only: it returns a report and leaves the
    node list, the edge list and everything else of the generator (and
    the error stream) exactly as they were; the report holds only strings
    and counts, no part of the graph. *)
Theorem get_statistics_read_only (w : World) :
  exists stats : Stats.t,
    get_statistics w = (inr stats, w)
    /\ nodes (self (snd (get_statistics w))) = nodes (self w)
    /\ edges (self (snd (get_statistics w))) = edges (self w)
    /\ snd (get_statistics w) = w.
Proof.
  eexists. rewrite get_statistics_run. cbn [snd]. repeat split.
Qed.

(** C10. The connectivity mapping has a key for every id that is an edge
    source or target, whatever the node list holds; [top_connected] keeps,
    of the first five ranked items, those whose id names a node, so ids
    without a node are dropped after the cut to five; and there is a graph
    with six ids on edges, one of them a real node, whose [top_connected]
    is empty. *)
Theorem dangling_ids_dropped_after_truncation :
  (forall (es : list Edge.t) (k : string),
      In k (Dict.keys (connectivity_of es)) <-> In k (endpoints es))
  /\ (forall (ns : list Node.t) (ic : string * nat),
         resolves ns ic = false <-> ~ In (fst ic) (map Node.id ns))
  /\ (forall w : World,
         exists stats,
           get_statistics w = (inr stats, w)
           /\ Forall2 (resolved_as (nodes (self w)))
                (filter (resolves (nodes (self w)))
                   (firstn 5
                      (sorted_reverse snd
                         (Dict.items (connectivity_of (edges (self w)))))))
                (Stats.top_connected stats))
  /\ (exists stats,
         get_statistics (mkWorld dangling_graph []) = (inr stats, mkWorld dangling_graph [])
         /\ Dict.items (connectivity_of (edges dangling_graph))
            = [("d1", 3); ("d2", 2); ("d3", 2); ("d4", 2); ("d5", 2); ("n", 1)]
         /\ 5 <= List.length (Dict.keys (connectivity_of (edges dangling_graph)))
         /\ In "n" (map Node.id (nodes dangling_graph))
         /\ Stats.top_connected stats = []
         /\ List.length (Stats.top_connected stats) < 5).
Proof.
  split; [exact connectivity_keys |].
  split; [exact resolves_false |].
  split.
  { intros w. eexists. split; [apply get_statistics_run |].
    apply resolve_top_spec. }
  eexists. split; [apply get_statistics_run |].
  repeat split; try reflexivity.
  - vm_compute. repeat constructor.
  - simpl. now left.
  - vm_compute. repeat constructor.
Qed.

(** ** The effects of the primitives *)

Lemma with_graph_same (w : World) :
  with_graph w (nodes (self w)) (edges (self w)) = w.
Proof. destruct w as [[? ? ? ? ?] ?]. reflexivity. Qed.

Lemma for_each_app {A : Type} (l1 l2 : list A) (body : A -> M unit) (w : World) :
  for_each (l1 ++ l2) body w
  = match for_each l1 body w with
    | (inr _, w') => for_each l2 body w'
    | (inl e, w') => (inl e, w')
    end.
Proof.
  revert w. induction l1 as [|x l1 IH]; intros w; simpl.
  - reflexivity.
  - unfold bind. destruct (body x w) as [[e | []] w1]; [reflexivity |].
    apply IH.
Qed.

Create HintDb frame.

Lemma frame_ret {A : Type} (a : A) : stderr_frame (ret a).
Proof.
  intros g. exists (inr a), g, []. intros err. now rewrite app_nil_r.
Qed.

Lemma frame_raise {A : Type} (e : Exn) : stderr_frame (@raise A e).
Proof.
  intros g. exists (inl e), g, []. intros err. now rewrite app_nil_r.
Qed.

Lemma frame_bind {A B : Type} (c : M A) (k : A -> M B) :
  stderr_frame c -> (forall a, stderr_frame (k a)) -> stderr_frame (bind c k).
Proof.
  intros Hc Hk g. destruct (Hc g) as (r & g1 & out1 & H1).
  destruct r as [e | a].
  - exists (inl e), g1, out1. intros err. unfold bind. now rewrite H1.
  - destruct (Hk a g1) as (r2 & g2 & out2 & H2).
    exists r2, g2, (out1 ++ out2). intros err. unfold bind.
    now rewrite H1, H2, app_assoc.
Qed.

Lemma frame_try_except (body : M unit) (handler : Exn -> M unit) :
  stderr_frame body -> (forall e, stderr_frame (handler e)) ->
  stderr_frame (try_except body handler).
Proof.
  intros Hb Hh g. destruct (Hb g) as (r & g1 & out1 & H1).
  destruct r as [e | []].
  - destruct (Hh e g1) as (r2 & g2 & out2 & H2).
    exists r2, g2, (out1 ++ out2). intros err. unfold try_except.
    now rewrite H1, H2, app_assoc.
  - exists (inr tt), g1, out1. intros err. unfold try_except. now rewrite H1.
Qed.

Lemma frame_get_self : stderr_frame get_self.
Proof.
  intros g. exists (inr g), g, []. intros err. now rewrite app_nil_r.
Qed.

Lemma frame_set_nodes (ns : list Node.t) : stderr_frame (set_nodes ns).
Proof.
  intros g. eexists (inr tt), _, []. intros err. unfold set_nodes. cbn.
  now rewrite app_nil_r.
Qed.

Lemma frame_set_edges (es : list Edge.t) : stderr_frame (set_edges es).
Proof.
  intros g. eexists (inr tt), _, []. intros err. unfold set_edges. cbn.
  now rewrite app_nil_r.
Qed.

Lemma frame_print_err (l : ErrLine) : stderr_frame (print_err l).
Proof.
  intros g. exists (inr tt), g, [l]. reflexivity.
Qed.

Lemma frame_lift {A : Type} (r : Exn + A) : stderr_frame (lift r).
Proof.
  destruct r; [apply frame_raise | apply frame_ret].
Qed.

Lemma frame_for_each {A : Type} (l : list A) (body : A -> M unit) :
  (forall x, stderr_frame (body x)) -> stderr_frame (for_each l body).
Proof.
  intros Hb. induction l as [|x l IH]; simpl.
  - apply frame_ret.
  - apply frame_bind; auto.
Qed.

#[local] Hint Resolve frame_ret frame_raise frame_bind frame_try_except
  frame_get_self frame_set_nodes frame_set_edges frame_print_err frame_lift
  frame_for_each : frame.

Lemma frame_append_node (n : Node.t) : stderr_frame (append_node n).
Proof. unfold append_node. auto with frame. Qed.

Lemma frame_append_edge (e : Edge.t) : stderr_frame (append_edge e).
Proof. unfold append_edge. auto with frame. Qed.

Lemma frame_decode_slice (content : list Byte.byte) (a b : nat) :
  stderr_frame (decode_slice content a b).
Proof.
  unfold decode_slice. destruct (Utf8.decode _); auto with frame.
Qed.

#[local] Hint Resolve frame_append_node frame_append_edge frame_decode_slice
  : frame.

Lemma frame_extract_declaration kind label rel fid content (m : Capture) :
  stderr_frame (extract_declaration kind label rel fid content m).
Proof.
  destruct m as [node cname]. unfold extract_declaration.
  destruct (String.eqb cname label); [| auto with frame].
  destruct (child_by_field_name node "name"); auto 6 with frame.
Qed.

Lemma frame_collect_imports content (caps : list Capture) (acc : list string) :
  stderr_frame (collect_imports content caps acc).
Proof.
  revert acc. induction caps as [|[node cname] caps IH]; intros acc; simpl.
  - auto with frame.
  - destruct (str_in "import.name" cname); auto with frame.
Qed.

#[local] Hint Resolve frame_extract_declaration frame_collect_imports : frame.

Lemma frame_extract_python_nodes tree fp content :
  stderr_frame (extract_python_nodes tree fp content).
Proof.
  unfold extract_python_nodes.
  apply frame_bind; [auto with frame |]. intros g.
  apply frame_bind; [auto with frame |]. intros _.
  apply frame_bind; [auto with frame |]. intros _.
  apply frame_bind; [auto with frame |]. intros _.
  apply frame_bind; [auto with frame |]. intros [|i imports];
    auto 6 with frame.
Qed.

Lemma frame_process_file env (fp : Path) : stderr_frame (process_file env fp).
Proof.
  unfold process_file. apply frame_try_except; [| auto with frame].
  apply frame_bind; [auto with frame |]. intros content.
  apply frame_bind; [auto with frame |]. intros tree.
  apply frame_bind; [auto with frame |]. intros g.
  destruct (String.eqb (language g) "python");
    auto using frame_extract_python_nodes with frame.
Qed.

(** [process_file] never lets an exception escape. *)
Lemma process_file_returns env (fp : Path) (w : World) :
  fst (process_file env fp w) = inr tt.
Proof.
  unfold process_file, try_except.
  match goal with |- context [match ?c w with _ => _ end] =>
    destruct (c w) as [[e | []] w'] end; reflexivity.
Qed.

Lemma for_each_process_file_returns env (files : list Path) (w : World) :
  fst (for_each files (process_file env) w) = inr tt.
Proof.
  revert w. induction files as [|f files IH]; intros w; simpl; [reflexivity |].
  unfold bind. pose proof (process_file_returns env f w) as H.
  destruct (process_file env f w) as [[e | []] w']; simpl in H;
    [discriminate | apply IH].
Qed.

(** ** The declaration loops *)

Lemma extract_declaration_run kind label rel fid content (m : Capture)
      (w : World) :
  extract_declaration kind label rel fid content m w
  = match decl_node kind label rel content m with
    | None => (inr tt, w)
    | Some (inl e) => (inl e, w)
    | Some (inr n) =>
        (inr tt, with_graph w (nodes (self w) ++ [n])
                              (edges (self w) ++ [contains_edge fid n]))
    end.
Proof.
  destruct m as [node cname]. unfold extract_declaration, decl_node.
  cbn [fst snd]. destruct (String.eqb cname label); [| reflexivity].
  destruct (child_by_field_name node "name") as [nn |]; [| reflexivity].
  unfold bind, decode_slice.
  destruct (Utf8.decode _); reflexivity.
Qed.

Lemma for_each_declared kind label rel fid content (caps : list Capture)
      (w : World) :
  for_each caps (extract_declaration kind label rel fid content) w
  = (match snd (declared kind label rel content caps) with
     | None => inr tt
     | Some e => inl e
     end,
     with_graph w
       (nodes (self w) ++ fst (declared kind label rel content caps))
       (edges (self w)
        ++ map (contains_edge fid) (fst (declared kind label rel content caps)))).
Proof.
  revert w. induction caps as [|m caps IH]; intros w.
  - simpl. now rewrite !app_nil_r, with_graph_same.
  - cbn [for_each declared]. unfold bind.
    rewrite extract_declaration_run.
    destruct (decl_node kind label rel content m) as [[e | n] |].
    + simpl. now rewrite !app_nil_r, with_graph_same.
    + rewrite IH.
      destruct (declared kind label rel content caps) as [ns e].
      cbn [fst snd map with_graph self nodes edges root_path language
           exclude_patterns stderr].
      now rewrite <- !app_assoc.
    + apply IH.
Qed.

Lemma declared_kind kind label rel content (caps : list Capture) :
  Forall (fun n => Node.type n = kind)
         (fst (declared kind label rel content caps)).
Proof.
  induction caps as [|m caps IH]; simpl; [constructor |].
  destruct (decl_node kind label rel content m) as [[e | n] |] eqn:E.
  - constructor.
  - destruct (declared kind label rel content caps) as [ns e].
    constructor; [| exact IH].
    unfold decl_node in E.
    destruct (String.eqb (snd m) label); [| discriminate].
    destruct (child_by_field_name (fst m) "name"); [| discriminate].
    destruct (Utf8.decode _); inversion E. reflexivity.
  - exact IH.
Qed.

(** A capture that yields nothing can be removed from the list. *)
Lemma declared_skip kind label rel content (pre post : list Capture)
      (m : Capture) :
  decl_node kind label rel content m = None ->
  declared kind label rel content (pre ++ m :: post)
  = declared kind label rel content (pre ++ post).
Proof.
  intros Hm. induction pre as [|x pre IH]; simpl.
  - now rewrite Hm.
  - now rewrite IH.
Qed.

Lemma decl_node_nameless kind label rel content (node : TSNode)
      (cname : string) :
  child_by_field_name node "name" = None ->
  decl_node kind label rel content (node, cname) = None.
Proof.
  intros H. unfold decl_node. cbn [fst snd]. rewrite H.
  now destruct (String.eqb cname label).
Qed.

(** ** The import loop *)

Lemma collect_imports_world content (caps : list Capture)
      (acc : list string) (w : World) :
  snd (collect_imports content caps acc w) = w.
Proof.
  revert acc. induction caps as [|[node cname] caps IH]; intros acc; simpl.
  - reflexivity.
  - destruct (str_in "import.name" cname); [| apply IH].
    unfold bind, decode_slice. destruct (Utf8.decode _); [apply IH |].
    reflexivity.
Qed.

(** When the loop completes, the list holds the raw text of the captures
    labelled [import.name], in capture order. *)
Lemma collect_imports_texts content (caps : list Capture)
      (acc imports : list string) (w : World) :
  fst (collect_imports content caps acc w) = inr imports ->
  exists texts,
    imports = acc ++ texts
    /\ Forall2 (fun cap s => import_text content cap = Some s)
               (filter (fun cap => str_in "import.name" (snd cap)) caps)
               texts.
Proof.
  revert acc. induction caps as [|[node cname] caps IH]; intros acc; simpl.
  - intros [= <-]. exists []. split; [now rewrite app_nil_r | constructor].
  - destruct (str_in "import.name" cname); [| apply IH].
    unfold bind, decode_slice, import_text. cbn [fst].
    destruct (Utf8.decode _) as [s |] eqn:E; [| discriminate].
    cbn [ret]. intros H. apply IH in H as (texts & -> & HF).
    exists (s :: texts). split; [now rewrite <- app_assoc |].
    constructor; assumption.
Qed.

(** ** Storing the imports *)

Lemma store_imports_here (fid : string) (imports : list string)
      (pre : list Node.t) (n : Node.t) (rest : list Node.t) :
  ~ In fid (map Node.id pre) -> Node.id n = fid ->
  store_imports fid imports (pre ++ n :: rest)
  = match Node.metadata n with
    | Some md =>
        inr (pre ++ Node.with_metadata n (Dict.set md "imports" (MList imports))
                 :: rest)
    | None => inl TypeError
    end.
Proof.
  intros Hpre Hn. induction pre as [|x pre IH]; simpl.
  - rewrite Hn, String.eqb_refl. reflexivity.
  - simpl in Hpre.
    destruct (String.eqb_spec (Node.id x) fid) as [E | _]; [tauto |].
    rewrite IH by tauto. now destruct (Node.metadata n).
Qed.

Lemma store_imports_earlier (fid : string) (imports : list string)
      (pre rest : list Node.t) :
  In fid (map Node.id pre) ->
  store_imports fid imports (pre ++ rest)
  = match store_imports fid imports pre with
    | inr pre' => inr (pre' ++ rest)
    | inl e => inl e
    end.
Proof.
  induction pre as [|x pre IH]; simpl; [tauto |].
  destruct (String.eqb_spec (Node.id x) fid) as [E | Hne].
  - intros _. now destruct (Node.metadata x).
  - intros [H | H]; [contradiction |].
    rewrite IH by assumption.
    now destruct (store_imports fid imports pre).
Qed.

(** Storing touches metadata only. *)
Lemma store_imports_ids (fid : string) (imports : list string)
      (ns ns' : list Node.t) :
  store_imports fid imports ns = inr ns' ->
  map Node.id ns' = map Node.id ns /\ List.length ns' = List.length ns.
Proof.
  revert ns'. induction ns as [|x ns IH]; simpl; intros ns'.
  - intros [= <-]. now split.
  - destruct (String.eqb (Node.id x) fid).
    + destruct (Node.metadata x); [| discriminate].
      intros [= <-]. now split.
    + destruct (store_imports fid imports ns) as [e | r]; [discriminate |].
      intros [= <-]. destruct (IH r eq_refl) as [E1 E2].
      simpl. now rewrite E1, E2.
Qed.

(** ** The extractor, stage by stage *)

Lemma with_graph_with_graph (w : World) ns es ns' es' :
  with_graph (with_graph w ns es) ns' es' = with_graph w ns' es'.
Proof. reflexivity. Qed.

Lemma append_node_run (n : Node.t) (w : World) :
  append_node n w
  = (inr tt, with_graph w (nodes (self w) ++ [n]) (edges (self w))).
Proof. reflexivity. Qed.

Lemma nodes_with_graph (w : World) ns es : nodes (self (with_graph w ns es)) = ns.
Proof. reflexivity. Qed.

Lemma edges_with_graph (w : World) ns es : edges (self (with_graph w ns es)) = es.
Proof. reflexivity. Qed.

Lemma language_with_graph (w : World) ns es :
  language (self (with_graph w ns es)) = language (self w).
Proof. reflexivity. Qed.

Lemma stderr_with_graph (w : World) ns es : stderr (with_graph w ns es) = stderr w.
Proof. reflexivity. Qed.

Lemma extract_python_nodes_run tree fp content (w : World) :
  let fid := file_id_of fp in
  let cd := declared "class" "class.def" (path_str fp) content
                     (class_captures tree) in
  let fd := declared "function" "func.def" (path_str fp) content
                     (function_captures tree) in
  let decls := extracted_decls tree fp content in
  let w3 := with_graph w
              (nodes (self w) ++ file_node_of (language (self w)) fp :: decls)
              (edges (self w) ++ map (contains_edge fid) decls) in
  extract_python_nodes tree fp content w
  = match snd cd with
    | Some e => (inl e, w3)
    | None =>
        match snd fd with
        | Some e => (inl e, w3)
        | None =>
            match fst (collect_imports content (import_captures tree) [] w3) with
            | inl e => (inl e, w3)
            | inr [] => (inr tt, w3)
            | inr (i :: imports) =>
                match store_imports fid (i :: imports) (nodes (self w3)) with
                | inr ns => (inr tt, with_graph w3 ns (edges (self w3)))
                | inl e => (inl e, w3)
                end
            end
        end
    end.
Proof.
  intros fid cd fd decls w3.
  unfold extract_python_nodes.
  unfold bind at 1. change (get_self w) with (@inr Exn _ (self w), w).
  cbv iota beta.
  unfold bind at 1. rewrite append_node_run.
  unfold bind at 1. rewrite for_each_declared.
  rewrite with_graph_with_graph, nodes_with_graph, edges_with_graph.
  fold (file_id_of fp). fold fid. fold cd.
  subst decls w3. unfold extracted_decls. fold cd fd.
  destruct cd as [cds ce]. cbn [fst snd].
  destruct ce as [e |].
  { unfold file_node_of. fold fid. now rewrite <- !app_assoc, !app_nil_r. }
  unfold bind at 1. rewrite for_each_declared.
  rewrite with_graph_with_graph, nodes_with_graph, edges_with_graph.
  fold fd. unfold file_node_of. fold fid.
  rewrite <- ?app_assoc, ?map_app, <- ?app_assoc. cbn [app].
  set (w3 := with_graph w _ _).
  destruct (snd fd) as [e |]; [reflexivity |].
  unfold bind at 1.
  pose proof (collect_imports_world content (import_captures tree) [] w3) as Hw.
  destruct (collect_imports content (import_captures tree) [] w3)
    as [[e | imports] wi]; cbn [fst snd] in *; subst wi; [reflexivity |].
  destruct imports as [|i imports]; [reflexivity |].
  unfold bind at 1. change (get_self w3) with (@inr Exn _ (self w3), w3).
  cbv iota beta. unfold bind at 1.
  destruct (store_imports fid (i :: imports) (nodes (self w3))) as [e | ns];
    reflexivity.
Qed.

Lemma extracted_decls_skip_class (pre post : list Capture) (m : Capture)
      fs ims fp content :
  decl_node "class" "class.def" (path_str fp) content m = None ->
  extracted_decls (mkTree (pre ++ m :: post) fs ims) fp content
  = extracted_decls (mkTree (pre ++ post) fs ims) fp content.
Proof.
  intros H. unfold extracted_decls. cbn [class_captures function_captures].
  now rewrite (declared_skip _ _ _ _ _ _ _ H).
Qed.

Lemma extracted_decls_skip_function (pre post : list Capture) (m : Capture)
      cs ims fp content :
  decl_node "function" "func.def" (path_str fp) content m = None ->
  extracted_decls (mkTree cs (pre ++ m :: post) ims) fp content
  = extracted_decls (mkTree cs (pre ++ post) ims) fp content.
Proof.
  intros H. unfold extracted_decls. cbn [class_captures function_captures].
  now rewrite (declared_skip _ _ _ _ _ _ _ H).
Qed.

(** C8. A matched class or function declaration whose name child is
    missing is skipped: the loop body returns normally without touching
    the world, and extraction of the whole file gives the same result and
    the same nodes and edges as if that capture were not in the list. *)
Theorem nameless_declaration_skipped (node : TSNode) (label : string) :
  child_by_field_name node "name" = None ->
  (forall kind def_label rel fid content (w : World),
      extract_declaration kind def_label rel fid content (node, label) w
      = (inr tt, w))
  /\ (forall pre post fs ims fp content (w : World),
         extract_python_nodes (mkTree (pre ++ (node, label) :: post) fs ims)
                              fp content w
         = extract_python_nodes (mkTree (pre ++ post) fs ims) fp content w)
  /\ (forall cs pre post ims fp content (w : World),
         extract_python_nodes (mkTree cs (pre ++ (node, label) :: post) ims)
                              fp content w
         = extract_python_nodes (mkTree cs (pre ++ post) ims) fp content w).
Proof.
  intros Hname. split; [| split].
  - intros. rewrite extract_declaration_run.
    now rewrite decl_node_nameless.
  - intros. rewrite !extract_python_nodes_run.
    cbn [class_captures function_captures import_captures].
    rewrite extracted_decls_skip_class by now apply decl_node_nameless.
    rewrite declared_skip by now apply decl_node_nameless.
    reflexivity.
  - intros. rewrite !extract_python_nodes_run.
    cbn [class_captures function_captures import_captures].
    rewrite extracted_decls_skip_function by now apply decl_node_nameless.
    rewrite declared_skip by now apply decl_node_nameless.
    reflexivity.
Qed.

Lemma nameless_declaration_skipped_witness :
  extract_declaration "class" "class.def" "pkg/mod.py" "750237ae0079025f"
                      sample_source (nameless_capture "class.def") fresh_world
  = (inr tt, fresh_world)
  /\ extract_python_nodes
       (mkTree ([] ++ nameless_capture "class.def" :: class_captures sample_tree)
               (function_captures sample_tree) (import_captures sample_tree))
       ["pkg"; "mod.py"] sample_source fresh_world
     = extract_python_nodes
         (mkTree ([] ++ class_captures sample_tree)
                 (function_captures sample_tree) (import_captures sample_tree))
         ["pkg"; "mod.py"] sample_source fresh_world.
Proof.
  destruct (nameless_declaration_skipped
              (fst (nameless_capture "class.def")) "class.def" eq_refl)
    as (Hbody & Hclass & _).
  split; [apply Hbody | apply Hclass].
Defined.

(** ** Containment *)

Lemma extracted_decls_kinds tree fp content :
  Forall (fun n => Node.type n = "class" \/ Node.type n = "function")
         (extracted_decls tree fp content).
Proof.
  unfold extracted_decls. apply Forall_app. split.
  - eapply Forall_impl; [| apply declared_kind]. simpl. intros n H. now left.
  - destruct (snd (declared "class" _ _ _ _)); [constructor |].
    eapply Forall_impl; [| apply declared_kind]. simpl. intros n H. now right.
Qed.

Lemma targets_of_contains_edges (fid k : string) (decls : list Node.t) :
  List.length (filter (fun e => String.eqb (Edge.target e) k)
                      (map (contains_edge fid) decls))
  = List.length (filter (fun n => String.eqb (Node.id n) k) decls).
Proof.
  induction decls as [|n decls IH]; simpl; [reflexivity |].
  destruct (String.eqb (Node.id n) k); simpl; now rewrite IH.
Qed.

Lemma count_contains_edge (fid : string) (decls : list Node.t) (n : Node.t) :
  count_occ edge_eq_dec (map (contains_edge fid) decls) (contains_edge fid n)
  = count_occ string_dec (map Node.id decls) (Node.id n).
Proof.
  induction decls as [|m decls IH]; cbn [map count_occ]; [reflexivity |].
  destruct (edge_eq_dec (contains_edge fid m) (contains_edge fid n)) as [E | E];
    destruct (string_dec (Node.id m) (Node.id n)) as [E' | E'].
  - now rewrite IH.
  - unfold contains_edge in E. injection E as E. contradiction.
  - exfalso. apply E. unfold contains_edge. now rewrite E'.
  - exact IH.
Qed.

(** The nodes and edges a single extraction leaves behind. *)
Lemma extract_python_nodes_shape tree fp content (w : World) :
  let w' := snd (extract_python_nodes tree fp content w) in
  let decls := extracted_decls tree fp content in
  exists olds fnode,
    nodes (self w') = olds ++ fnode :: decls
    /\ map Node.id olds = map Node.id (nodes (self w))
    /\ Node.id fnode = file_id_of fp
    /\ Node.type fnode = "file"
    /\ edges (self w')
       = edges (self w) ++ map (contains_edge (file_id_of fp)) decls.
Proof.
  intros w' decls. subst w'. rewrite extract_python_nodes_run. fold decls.
  set (w3 := with_graph w _ _).
  assert (exists olds fnode,
             nodes (self w3) = olds ++ fnode :: decls
             /\ map Node.id olds = map Node.id (nodes (self w))
             /\ Node.id fnode = file_id_of fp
             /\ Node.type fnode = "file"
             /\ edges (self w3)
                = edges (self w) ++ map (contains_edge (file_id_of fp)) decls)
    as Hw3.
  { exists (nodes (self w)), (file_node_of (language (self w)) fp).
    repeat split. }
  destruct (snd (declared "class" _ _ _ _)); [exact Hw3 |].
  destruct (snd (declared "function" _ _ _ _)); [exact Hw3 |].
  destruct (fst (collect_imports _ _ _ _)) as [e | [|i imports]];
    try exact Hw3.
  destruct (store_imports (file_id_of fp) (i :: imports) (nodes (self w3)))
    as [e | ns] eqn:Hs; [exact Hw3 |].
  cbn [snd]. rewrite nodes_with_graph, edges_with_graph.
  subst w3. rewrite nodes_with_graph, edges_with_graph in *.
  destruct (in_dec string_dec (file_id_of fp) (map Node.id (nodes (self w))))
    as [Hin | Hnotin].
  - rewrite store_imports_earlier in Hs by exact Hin.
    destruct (store_imports (file_id_of fp) (i :: imports) (nodes (self w)))
      as [e | olds] eqn:Ho; [discriminate |].
    injection Hs as <-.
    exists olds, (file_node_of (language (self w)) fp).
    apply store_imports_ids in Ho as [Hids _]. repeat split. exact Hids.
  - rewrite (store_imports_here _ _ _ (file_node_of (language (self w)) fp)
                                 _ Hnotin eq_refl) in Hs.
    cbn [file_node_of Node.metadata] in Hs. injection Hs as <-.
    eexists (nodes (self w)), _. repeat split.
Qed.

(** C2. Every class node and every function node emitted while
    extracting a file comes with one appended edge of type contains from
    the file's id to the node's id, and nothing else is appended to the
    edge list: the new edges are, in order, the containment edges of the
    new declaration nodes. So the new edges that target an id are as many
    as the new nodes with that id: exactly one when ids are distinct. *)
Theorem containment_completeness tree fp content (w : World) :
  let fid := file_id_of fp in
  let w' := snd (extract_python_nodes tree fp content w) in
  let decls := extracted_decls tree fp content in
  let new_edges := map (contains_edge fid) decls in
  exists olds fnode,
    nodes (self w') = olds ++ fnode :: decls
    /\ map Node.id olds = map Node.id (nodes (self w))
    /\ Node.id fnode = fid
    /\ Node.type fnode = "file"
    /\ Forall (fun n => Node.type n = "class" \/ Node.type n = "function") decls
    /\ edges (self w') = edges (self w) ++ new_edges
    /\ (forall k,
           List.length (filter (fun e => String.eqb (Edge.target e) k) new_edges)
           = List.length (filter (fun n => String.eqb (Node.id n) k) decls))
    /\ (NoDup (map Node.id decls) ->
        forall n, In n decls ->
          count_occ edge_eq_dec new_edges (contains_edge fid n) = 1
          /\ forall e, In e new_edges -> Edge.target e = Node.id n ->
                       e = contains_edge fid n).
Proof.
  intros fid w' decls new_edges.
  destruct (extract_python_nodes_shape tree fp content w)
    as (olds & fnode & Hn & Hids & Hid & Hty & He).
  exists olds, fnode.
  split; [exact Hn |]. split; [exact Hids |]. split; [exact Hid |].
  split; [exact Hty |]. split; [apply extracted_decls_kinds |].
  split; [exact He |].
  split; [intros k; apply targets_of_contains_edges |].
  intros Hnd n Hn'. split.
  - unfold new_edges. rewrite count_contains_edge.
    apply NoDup_count_occ'; [exact Hnd | now apply in_map].
  - intros e He' Ht. unfold new_edges in He'.
    apply in_map_iff in He' as (m & <- & _).
    unfold contains_edge in *. simpl in Ht. now rewrite Ht.
Qed.

Lemma containment_completeness_witness :
  edges (self (snd (extract_python_nodes sample_tree ["pkg"; "mod.py"]
                                        sample_source fresh_world)))
  = [ Edge.mk "750237ae0079025f" "82f0715758d9152e" "contains";
      Edge.mk "750237ae0079025f" "ba110cdf503ccb04" "contains" ]
  /\ forall n,
      In n (extracted_decls sample_tree ["pkg"; "mod.py"] sample_source) ->
      count_occ edge_eq_dec
        (map (contains_edge (file_id_of ["pkg"; "mod.py"]))
             (extracted_decls sample_tree ["pkg"; "mod.py"] sample_source))
        (contains_edge (file_id_of ["pkg"; "mod.py"]) n) = 1.
Proof.
  destruct (containment_completeness sample_tree ["pkg"; "mod.py"]
                                     sample_source fresh_world)
    as (olds & fnode & _ & _ & _ & _ & _ & He & _ & Hone).
  split.
  - rewrite He. vm_compute. reflexivity.
  - intros n Hn. apply Hone; [| exact Hn].
    vm_compute. repeat constructor; simpl; intuition discriminate.
Defined.

(** ** Import collection *)

(** C6. When extraction of a file completes and no node
    already in the graph carries the file's id, the raw text of every
    capture labelled [import.name] is collected in capture order, and the
    file node emitted for that file has the metadata key [imports], bound
    to that list, if and only if the list is non-empty; its metadata is
    otherwise the language tag alone. *)
Theorem imports_attached_to_file_node tree fp content (w w' : World) :
  extract_python_nodes tree fp content w = (inr tt, w') ->
  ~ In (file_id_of fp) (map Node.id (nodes (self w))) ->
  exists imports fnode md,
    Forall2 (fun cap s => import_text content cap = Some s)
            (import_name_captures tree) imports
    /\ nth_error (nodes (self w')) (List.length (nodes (self w))) = Some fnode
    /\ Node.id fnode = file_id_of fp
    /\ Node.type fnode = "file"
    /\ Node.metadata fnode = Some md
    /\ md = ("language", MStr (language (self w)))
            :: match imports with
               | [] => []
               | _ :: _ => [("imports", MList imports)]
               end
    /\ (Dict.mem md "imports" = true <-> imports <> [])
    /\ (imports <> [] -> Dict.get md "imports" (MStr "") = MList imports).
Proof.
  intros Hrun Hfresh. rewrite extract_python_nodes_run in Hrun.
  set (w3 := with_graph w _ _) in Hrun.
  destruct (snd (declared "class" _ _ _ _)); [discriminate |].
  destruct (snd (declared "function" _ _ _ _)); [discriminate |].
  destruct (fst (collect_imports content (import_captures tree) [] w3))
    as [e | imports] eqn:Hc; [discriminate |].
  apply collect_imports_texts in Hc as (texts & Himp & Htexts).
  simpl in Himp. subst texts.
  exists imports.
  destruct imports as [|i imports].
  - injection Hrun as <-.
    exists (file_node_of (language (self w)) fp). eexists.
    split; [exact Htexts |].
    split. { subst w3. rewrite nodes_with_graph.
             rewrite nth_error_app2, Nat.sub_diag by lia. reflexivity. }
    repeat split; try discriminate; try congruence.
  - subst w3. rewrite nodes_with_graph in Hrun.
    rewrite (store_imports_here _ _ _ (file_node_of (language (self w)) fp)
                                _ Hfresh eq_refl) in Hrun.
    cbn [file_node_of Node.metadata] in Hrun. injection Hrun as <-.
    eexists. eexists.
    split; [exact Htexts |].
    split. { rewrite nodes_with_graph.
             rewrite nth_error_app2, Nat.sub_diag by lia. reflexivity. }
    repeat split; try discriminate; try congruence.
Qed.

Lemma imports_attached_to_file_node_witness :
  exists w' fnode,
    extract_python_nodes sample_tree ["pkg"; "mod.py"] sample_source fresh_world
    = (inr tt, w')
    /\ nth_error (nodes (self w')) 0 = Some fnode
    /\ Node.type fnode = "file"
    /\ Node.metadata fnode
       = Some [("language", MStr "python"); ("imports", MList ["os"])].
Proof.
  eexists.
  assert (extract_python_nodes sample_tree ["pkg"; "mod.py"] sample_source
                               fresh_world
          = (inr tt, snd (extract_python_nodes sample_tree ["pkg"; "mod.py"]
                                               sample_source fresh_world)))
    as Hrun by (vm_compute; reflexivity).
  destruct (imports_attached_to_file_node _ _ _ _ _ Hrun)
    as (imports & fnode & md & Htexts & Hnth & _ & Hty & Hmd & Hmdv & _).
  { simpl. tauto. }
  exists fnode. split; [exact Hrun |]. split; [exact Hnth |].
  split; [exact Hty |].
  rewrite Hmd, Hmdv. do 2 f_equal.
  inversion Htexts as [| cap s caps ss Hs Hrest]; subst.
  inversion Hrest; subst.
  vm_compute in Hs. injection Hs as <-. reflexivity.
Defined.

(** Without the proviso the property fails: when the same path is found
    twice (two patterns that overlap), the second extraction emits a second
    file node, the import list is [["os"]], and the key goes to the first
    node with that id; the file node just emitted has no [imports]. *)
Lemma imports_missing_on_second_file_node :
  exists w' fnode,
    extract_python_nodes sample_tree ["mod.py"] sample_source reprocess_world
    = (inr tt, w')
    /\ fst (collect_imports sample_source (import_captures sample_tree) []
                            reprocess_world) = inr ["os"]
    /\ nth_error (nodes (self w')) (List.length (nodes (self reprocess_world)))
       = Some fnode
    /\ Node.type fnode = "file"
    /\ Node.id fnode = file_id_of ["mod.py"]
    /\ Node.metadata fnode = Some [("language", MStr "python")]
    /\ fst (generate overlap_env ["*.py"; "mod*"] fresh_world)
       = inr (Graph.mk (nodes (self w')) (edges (self w'))
                (Graph.mkMetadata "2024-05-01T12:00:00" "python"
                                  ["srv"; "repo"] 2 6 4)).
Proof.
  eexists. eexists.
  split; [vm_compute; reflexivity |].
  split; [vm_compute; reflexivity |].
  split; [vm_compute; reflexivity |].
  repeat split; vm_compute; reflexivity.
Qed.

(** ** The graph builder *)

Lemma process_file_ext env env' (f : Path) (w : World) :
  read_bytes env' = read_bytes env ->
  parser_parse env' = parser_parse env ->
  process_file env' f w = process_file env f w.
Proof.
  intros Hr Hp. unfold process_file. now rewrite Hr, Hp.
Qed.

Lemma for_each_process_file_ext env env' (files : list Path) (w : World) :
  read_bytes env' = read_bytes env ->
  parser_parse env' = parser_parse env ->
  for_each files (process_file env') w = for_each files (process_file env) w.
Proof.
  intros Hr Hp. revert w. induction files as [|f files IH]; intros w; simpl.
  - reflexivity.
  - unfold bind. rewrite (process_file_ext env env' f w Hr Hp).
    destruct (process_file env f w) as [[e | []] w1]; [reflexivity | apply IH].
Qed.

Lemma find_files_world env (patterns : list string) (w : World) :
  snd (find_files env patterns w) = w.
Proof. reflexivity. Qed.

(** [generate] returns the node and edge lists reached after the loop,
    with the counts. *)
Lemma generate_run env (patterns : list string) (files : list Path)
      (w : World) :
  fst (find_files env patterns w) = inr files ->
  let w1 := snd (for_each files (process_file env) w) in
  generate env patterns w
  = (inr (Graph.mk (nodes (self w1)) (edges (self w1))
            (Graph.mkMetadata (now_isoformat env) (language (self w1))
                              (root_path (self w1)) (List.length files)
                              (List.length (nodes (self w1)))
                              (List.length (edges (self w1))))),
     w1).
Proof.
  intros Hf w1. unfold generate. unfold bind at 1.
  destruct (find_files env patterns w) as [r w0] eqn:E.
  assert (w0 = w) as -> by (now rewrite <- (find_files_world env patterns w), E).
  cbn [fst] in Hf. subst r.
  unfold bind at 1.
  pose proof (for_each_process_file_returns env files w) as Hret.
  subst w1.
  destruct (for_each files (process_file env) w) as [[e | []] w1];
    [discriminate |].
  reflexivity.
Qed.

(** A file whose read or parse raises is reported and leaves the graph
    as it was. *)
Lemma process_file_failure env (f : Path) (e : Exn) (w : World) :
  (read_bytes env f = inl e
   \/ exists content,
       read_bytes env f = inr content /\ parser_parse env content = inl e) ->
  process_file env f w = (inr tt, mkWorld (self w) (stderr w ++ [(f, e)])).
Proof.
  intros [Hr | (content & Hr & Hp)]; unfold process_file, try_except, bind;
    rewrite Hr; cbn [lift raise ret]; [reflexivity |].
  rewrite Hp. reflexivity.
Qed.

(** C3. A file whose read or parse raises is caught inside the loop: the
    error is reported on the error stream with the file's path,
    node and edge lists stay as they were, the loop goes on, and the
    generator reached at the end (so every node and edge of the other
    files) is the one reached when the failing file is not in the list at
    all; the graphs returned by [generate] have the same nodes and edges. *)
Theorem failing_file_isolated env (pre post : list Path) (f : Path)
        (e : Exn) (w : World) :
  (read_bytes env f = inl e
   \/ exists content,
       read_bytes env f = inr content /\ parser_parse env content = inl e) ->
  let with_f := for_each (pre ++ f :: post) (process_file env) w in
  let without_f := for_each (pre ++ post) (process_file env) w in
  process_file env f w = (inr tt, mkWorld (self w) (stderr w ++ [(f, e)]))
  /\ fst with_f = inr tt
  /\ fst without_f = inr tt
  /\ self (snd with_f) = self (snd without_f)
  /\ In (f, e) (stderr (snd with_f))
  /\ (forall env' patterns,
         read_bytes env' = read_bytes env ->
         parser_parse env' = parser_parse env ->
         fst (find_files env patterns w) = inr (pre ++ f :: post) ->
         fst (find_files env' patterns w) = inr (pre ++ post) ->
         exists G G',
           fst (generate env patterns w) = inr G
           /\ fst (generate env' patterns w) = inr G'
           /\ Graph.nodes G = Graph.nodes G'
           /\ Graph.edges G = Graph.edges G'
           /\ Graph.files_processed (Graph.metadata G)
              = S (Graph.files_processed (Graph.metadata G'))).
Proof.
  intros Hfail with_f without_f.
  assert (self (snd with_f) = self (snd without_f)
          /\ In (f, e) (stderr (snd with_f))) as [Hself Hin].
  { subst with_f without_f. rewrite !for_each_app.
    pose proof (for_each_process_file_returns env pre w) as Hpre.
    destruct (for_each pre (process_file env) w) as [[e0 | []] w1];
      [discriminate |].
    change (for_each (f :: post) (process_file env) w1)
      with (bind (process_file env f)
                 (fun _ => for_each post (process_file env)) w1).
    unfold bind. rewrite (process_file_failure env f e w1 Hfail).
    destruct (frame_for_each post (process_file env)
                             (frame_process_file env) (self w1))
      as (r & g' & out & Hpost).
    rewrite Hpost.
    replace (for_each post (process_file env) w1)
      with (for_each post (process_file env) (mkWorld (self w1) (stderr w1)))
      by now destruct w1.
    rewrite Hpost. cbn [snd self stderr]. split; [reflexivity |].
    apply in_or_app. left. apply in_or_app. right. now left. }
  split; [now apply process_file_failure |].
  split; [apply for_each_process_file_returns |].
  split; [apply for_each_process_file_returns |].
  split; [exact Hself |]. split; [exact Hin |].
  intros env' patterns Hr Hp Hfiles Hfiles'.
  eexists. eexists.
  rewrite (generate_run env patterns _ w Hfiles).
  rewrite (generate_run env' patterns _ w Hfiles').
  rewrite (for_each_process_file_ext env env' _ w Hr Hp).
  fold with_f. fold without_f. cbn [fst].
  split; [reflexivity |]. split; [reflexivity |].
  cbn [Graph.nodes Graph.edges Graph.metadata Graph.files_processed].
  rewrite Hself, !length_app. cbn [List.length].
  repeat split. lia.
Qed.

Lemma failing_file_isolated_witness :
  process_file sample_env ["bad.py"] fresh_world
  = (inr tt,
     mkWorld (self fresh_world) [(["bad.py"], OSError "Permission denied")])
  /\ exists G G',
      fst (generate sample_env ["**/*.py"] fresh_world) = inr G
      /\ fst (generate sample_env_without_bad ["**/*.py"] fresh_world) = inr G'
      /\ Graph.nodes G = Graph.nodes G'
      /\ Graph.edges G = Graph.edges G'
      /\ Graph.files_processed (Graph.metadata G) = 3.
Proof.
  destruct (failing_file_isolated
              sample_env [["pkg"; "mod.py"]] [["pkg"; "util.py"]] ["bad.py"]
              (OSError "Permission denied") fresh_world)
    as (Hone & _ & _ & _ & _ & Hgen).
  { left. vm_compute. reflexivity. }
  split; [exact Hone |].
  destruct (Hgen sample_env_without_bad ["**/*.py"])
    as (G & G' & HG & HG' & Hn & He & Hc).
  { reflexivity. }
  { reflexivity. }
  { vm_compute. reflexivity. }
  { vm_compute. reflexivity. }
  exists G, G'. repeat split; try assumption.
  rewrite Hc. generalize HG'.
  vm_compute. intros [= <-]. reflexivity.
Defined.

(** C7. With no file discovered, [generate] on a newly built generator
    returns a graph with no nodes, no edges and [files_processed = 0] (and
    zero counts), leaving the generator empty; and on a graph with no nodes
    and no edges [get_statistics] returns empty [node_types], empty
    [edge_types] and an empty [top_connected] list. *)
Theorem empty_input env (root : Path) (lang : string)
        (exclude : option (list string)) (patterns : list string) :
  let w0 := mkWorld (init root lang exclude) [] in
  fst (find_files env patterns w0) = inr [] ->
  generate env patterns w0
  = (inr (Graph.mk [] []
            (Graph.mkMetadata (now_isoformat env) lang root 0 0 0)),
     w0)
  /\ get_statistics w0 = (inr (Stats.mk [] [] []), w0)
  /\ (forall w : World,
         nodes (self w) = [] -> edges (self w) = [] ->
         get_statistics w = (inr (Stats.mk [] [] []), w)).
Proof.
  intros w0 Hfiles.
  split; [rewrite (generate_run env patterns [] w0 Hfiles); reflexivity |].
  split; [reflexivity |].
  intros w Hn He. rewrite get_statistics_run, Hn, He. reflexivity.
Qed.

Lemma empty_input_witness :
  generate empty_env ["**/*.py"] fresh_world
  = (inr (Graph.mk [] []
            (Graph.mkMetadata "2024-05-01T12:00:00" "python" ["srv"; "repo"]
                              0 0 0)),
     fresh_world)
  /\ get_statistics fresh_world = (inr (Stats.mk [] [] []), fresh_world).
Proof.
  destruct (empty_input empty_env ["srv"; "repo"] "python" None ["**/*.py"]
                        eq_refl) as (Hgen & Hstats & _).
  split; [exact Hgen | exact Hstats].
Defined.

(* ================================================================== *)
(** * Further properties of the code *)
(* ================================================================== *)

(** ** File discovery *)

Lemma should_exclude_iff (g : Generator) (p : Path) :
  should_exclude g p = true
  <-> exists pattern,
      In pattern (exclude_patterns g) /\ In pattern (root_path g ++ p).
Proof.
  unfold should_exclude. rewrite existsb_exists. split.
  - intros (pattern & Hin & H). exists pattern. split; [exact Hin |].
    apply existsb_exists in H as (part & Hpart & E).
    apply String.eqb_eq in E. now subst.
  - intros (pattern & Hin & Hpart). exists pattern. split; [exact Hin |].
    apply existsb_exists. exists pattern. split; [exact Hpart |].
    apply String.eqb_refl.
Qed.

Lemma find_files_run env (patterns : list string) (w : World) :
  find_files env patterns w
  = (inr (flat_map
            (fun pattern =>
               filter (fun file_path =>
                         is_file env file_path
                         && negb (should_exclude (self w) file_path))
                      (rglob env pattern))
            patterns),
     w).
Proof. reflexivity. Qed.

Lemma find_files_in env (patterns : list string) (w : World) (files : list Path) :
  fst (find_files env patterns w) = inr files ->
  forall f,
    In f files
    <-> exists pattern,
        In pattern patterns
        /\ In f (rglob env pattern)
        /\ is_file env f = true
        /\ forall x, In x (exclude_patterns (self w)) ->
                     ~ In x (root_path (self w) ++ f).
Proof.
  rewrite find_files_run. cbn [fst]. intros [= <-].
  intros f. rewrite in_flat_map. split.
  - intros (pattern & Hp & Hf). exists pattern. split; [exact Hp |].
    apply filter_In in Hf as (Hf & Hc).
    apply andb_true_iff in Hc as (Hfile & Hex).
    split; [exact Hf |]. split; [exact Hfile |].
    intros x Hx Hin. apply negb_true_iff in Hex.
    assert (should_exclude (self w) f = true) as Ht
        by (apply should_exclude_iff; now exists x).
    congruence.
  - intros (pattern & Hp & Hf & Hfile & Hex). exists pattern.
    split; [exact Hp |]. apply filter_In. split; [exact Hf |].
    rewrite Hfile. simpl. apply negb_true_iff.
    destruct (should_exclude (self w) f) eqn:E; [| reflexivity].
    apply should_exclude_iff in E as (x & Hx & Hin).
    exfalso. exact (Hex x Hx Hin).
Qed.


(** Exclusion looks at the absolute path: when a component of the root
    itself is an exclusion pattern, every file is excluded and nothing is
    found, whatever the patterns. *)
Theorem find_files_excluded_root env (patterns : list string) (w : World)
        (x : string) :
  In x (exclude_patterns (self w)) -> In x (root_path (self w)) ->
  find_files env patterns w = (inr [], w).
Proof.
  intros Hx Hroot. rewrite find_files_run. do 2 f_equal.
  induction patterns as [|pattern patterns IH]; [reflexivity |].
  cbn [flat_map]. rewrite IH, app_nil_r.
  induction (rglob env pattern) as [|f fs IHf]; [reflexivity |].
  cbn [filter].
  assert (should_exclude (self w) f = true) as ->.
  { apply should_exclude_iff. exists x. split; [exact Hx |].
    apply in_or_app. now left. }
  rewrite andb_false_r. exact IHf.
Qed.

Lemma find_files_excluded_root_witness :
  find_files sample_env ["**/*.py"]
             (mkWorld (init ["srv"; "build"; "repo"] "python" None) [])
  = (inr [], mkWorld (init ["srv"; "build"; "repo"] "python" None) []).
Proof.
  apply (find_files_excluded_root sample_env ["**/*.py"] _ "build").
  - simpl. tauto.
  - simpl. tauto.
Defined.

(** Patterns are searched one after the other and the results are
    concatenated without removing duplicates: a file matched by two
    patterns is listed (and later processed) twice. *)
Theorem find_files_concatenates env (ps qs : list string) (w : World) :
  exists fs gs,
    find_files env ps w = (inr fs, w)
    /\ find_files env qs w = (inr gs, w)
    /\ find_files env (ps ++ qs) w = (inr (fs ++ gs), w)
    /\ (forall f, In f fs -> In f gs ->
                  2 <= count_occ (list_eq_dec string_dec) (fs ++ gs) f).
Proof.
  eexists. eexists. rewrite !find_files_run.
  split; [reflexivity |]. split; [reflexivity |].
  split; [now rewrite flat_map_app |].
  intros f Hf Hg. rewrite count_occ_app.
  apply (count_occ_In (list_eq_dec string_dec)) in Hf.
  apply (count_occ_In (list_eq_dec string_dec)) in Hg.
  exact (Nat.add_le_mono 1 _ 1 _ Hf Hg).
Qed.

Lemma find_files_concatenates_witness :
  fst (find_files overlap_env (["*.py"] ++ ["mod*"]) fresh_world)
  = inr [["mod.py"]; ["mod.py"]].
Proof.
  destruct (find_files_concatenates overlap_env ["*.py"] ["mod*"] fresh_world)
    as (fs & gs & Hfs & Hgs & Happ & _).
  rewrite Happ. cbn [fst].
  vm_compute in Hfs. vm_compute in Hgs.
  injection Hfs as <-. injection Hgs as <-. reflexivity.
Defined.

(** An empty exclusion list does not switch exclusion off: [__init__]
    replaces it, like [None], by the nine default names, so a file with a
    component such as [node_modules] is never found. *)
Theorem empty_exclude_list_means_defaults env (root : Path) (lang : string)
        (patterns : list string) (f : Path) (x : string) :
  In x default_exclude_patterns -> In x f ->
  exclude_patterns (init root lang (Some [])) = default_exclude_patterns
  /\ exclude_patterns (init root lang None) = default_exclude_patterns
  /\ forall err files,
      fst (find_files env patterns (mkWorld (init root lang (Some [])) err))
      = inr files ->
      ~ In f files.
Proof.
  intros Hx Hf. split; [reflexivity |]. split; [reflexivity |].
  intros err files Hfiles Hin.
  apply (find_files_in _ _ _ _ Hfiles) in Hin as (pattern & _ & _ & _ & Hex).
  apply (Hex x); [exact Hx |]. apply in_or_app. now right.
Qed.

Lemma empty_exclude_list_means_defaults_witness :
  exclude_patterns (init ["srv"; "repo"] "python" (Some []))
  = default_exclude_patterns.
Proof.
  apply (empty_exclude_list_means_defaults
           sample_env ["srv"; "repo"] "python" ["**/*.py"]
           ["node_modules"; "x.py"] "node_modules").
  - simpl. tauto.
  - simpl. tauto.
Defined.

(** ** Histograms and degrees *)

Lemma fold_left_bump_map {A : Type} (f : A -> string) (l : list A)
      (d : Dict.t nat) :
  fold_left (fun d x => bump d (f x)) l d = fold_left bump (map f l) d.
Proof.
  revert d. induction l as [|x l IH]; intros d; simpl; [reflexivity | apply IH].
Qed.

Lemma keys_fold_bump_empty (ks : list string) :
  Dict.keys (fold_left bump ks Dict.empty) = first_seen ks.
Proof.
  rewrite keys_fold_bump. simpl.
  induction (first_seen ks) as [|x l IH]; simpl; [reflexivity | now rewrite IH].
Qed.

Lemma items_fold_bump_empty (ks : list string) :
  Dict.items (fold_left bump ks Dict.empty)
  = map (fun k => (k, count_occ string_dec ks k)) (first_seen ks).
Proof.
  rewrite (DictFacts.items_get _ 0)
    by (rewrite keys_fold_bump_empty; apply first_seen_nodup).
  rewrite keys_fold_bump_empty. apply map_ext. intros k.
  now rewrite get_fold_bump.
Qed.

Lemma list_sum_map_add {A : Type} (f g : A -> nat) (l : list A) :
  list_sum (map (fun x => f x + g x) l)
  = list_sum (map f l) + list_sum (map g l).
Proof.
  induction l as [|x l IH]; simpl; [reflexivity | rewrite IH; lia].
Qed.

Lemma list_sum_indicator (x : string) (L : list string) :
  list_sum (map (fun k => if string_dec x k then 1 else 0) L)
  = count_occ string_dec L x.
Proof.
  induction L as [|y L IH]; simpl; [reflexivity |].
  rewrite IH.
  destruct (string_dec x y) as [E | Hne], (string_dec y x) as [E' | Hne'];
    congruence || lia.
Qed.

(** Summing the occurrence counts over a duplicate-free list of all the
    elements gives the length. *)
Lemma list_sum_counts (l L : list string) :
  NoDup L -> (forall x, In x l -> In x L) ->
  list_sum (map (count_occ string_dec l) L) = List.length l.
Proof.
  intros HL. induction l as [|x l IH]; intros Hsub.
  - simpl. induction L as [|y L IHL]; simpl; [reflexivity |].
    inversion HL; subst. now rewrite IHL.
  - rewrite (map_ext (count_occ string_dec (x :: l))
                     (fun k => (if string_dec x k then 1 else 0)
                               + count_occ string_dec l k)).
    + rewrite list_sum_map_add, list_sum_indicator, IH.
      * rewrite (proj1 (NoDup_count_occ' string_dec L) HL x);
          [reflexivity |].
        apply Hsub. now left.
      * intros y Hy. apply Hsub. now right.
    + intros k. simpl. now destruct (string_dec x k).
Qed.

Lemma list_sum_histogram (ks : list string) :
  list_sum (map snd (Dict.items (fold_left bump ks Dict.empty)))
  = List.length ks.
Proof.
  rewrite items_fold_bump_empty, map_map. cbn [snd].
  apply list_sum_counts; [apply first_seen_nodup |].
  intros x. apply first_seen_in.
Qed.

(** [node_types] and [edge_types] are histograms: the keys are the types
    that occur, in order of first occurrence, each bound to the number of
    nodes (edges) of that type, a type that does not occur having no key;
    the counts add up to the number of nodes (edges). *)
Theorem type_histograms (w : World) :
  exists stats,
    get_statistics w = (inr stats, w)
    /\ Dict.items (Stats.node_types stats)
       = map (fun k => (k, count_occ string_dec
                             (map Node.type (nodes (self w))) k))
             (first_seen (map Node.type (nodes (self w))))
    /\ Dict.items (Stats.edge_types stats)
       = map (fun k => (k, count_occ string_dec
                             (map Edge.type (edges (self w))) k))
             (first_seen (map Edge.type (edges (self w))))
    /\ (forall k, Dict.mem (Stats.node_types stats) k = true
                  <-> exists n, In n (nodes (self w)) /\ Node.type n = k)
    /\ list_sum (map snd (Dict.items (Stats.node_types stats)))
       = List.length (nodes (self w))
    /\ list_sum (map snd (Dict.items (Stats.edge_types stats)))
       = List.length (edges (self w)).
Proof.
  eexists. split; [apply get_statistics_run |].
  cbn [Stats.node_types Stats.edge_types].
  rewrite (fold_left_bump_map Node.type), (fold_left_bump_map Edge.type).
  split; [apply items_fold_bump_empty |].
  split; [apply items_fold_bump_empty |].
  split.
  { intros k. rewrite DictFacts.mem_in, keys_fold_bump_empty, first_seen_in.
    rewrite in_map_iff. split; intros (n & A & B); exists n; tauto. }
  split; [now rewrite list_sum_histogram, length_map |].
  now rewrite list_sum_histogram, length_map.
Qed.

Lemma count_occ_endpoints (es : list Edge.t) (k : string) :
  count_occ string_dec (endpoints es) k
  = List.length (filter (fun e => String.eqb (Edge.source e) k) es)
    + List.length (filter (fun e => String.eqb (Edge.target e) k) es).
Proof.
  induction es as [|e es IH]; [reflexivity |].
  cbn [endpoints flat_map app count_occ filter].
  fold (endpoints es). rewrite IH.
  destruct (string_dec (Edge.source e) k) as [E1 | E1],
           (string_dec (Edge.target e) k) as [E2 | E2].
  - rewrite E1, E2, String.eqb_refl. simpl. lia.
  - rewrite E1, String.eqb_refl.
    apply String.eqb_neq in E2. rewrite E2. simpl. lia.
  - rewrite E2, String.eqb_refl.
    apply String.eqb_neq in E1. rewrite E1. simpl. lia.
  - apply String.eqb_neq in E1, E2. rewrite E1, E2. simpl. lia.
Qed.

(** The connectivity of an id is its out-degree plus its in-degree (an
    edge from a node to itself counts twice), an id on no edge has no
    entry, and the counts add up to twice the number of edges. *)
Theorem connectivity_is_degree (es : list Edge.t) :
  (forall k,
      Dict.get (connectivity_of es) k 0
      = List.length (filter (fun e => String.eqb (Edge.source e) k) es)
        + List.length (filter (fun e => String.eqb (Edge.target e) k) es))
  /\ (forall k,
         Dict.mem (connectivity_of es) k = true
         <-> exists e, In e es /\ (Edge.source e = k \/ Edge.target e = k))
  /\ list_sum (map snd (Dict.items (connectivity_of es)))
     = 2 * List.length es.
Proof.
  split; [| split].
  - intros k. unfold connectivity_of.
    rewrite connectivity_fold, get_fold_bump. simpl.
    apply count_occ_endpoints.
  - intros k. rewrite DictFacts.mem_in, connectivity_keys.
    unfold endpoints. rewrite in_flat_map.
    split; intros (e & He & H); exists e; (split; [exact He |]);
      simpl in *; intuition auto.
  - unfold connectivity_of. rewrite connectivity_fold, list_sum_histogram.
    unfold endpoints. clear. induction es as [|e es IH]; simpl; [reflexivity |].
    rewrite IH. lia.
Qed.

(** ** The ranking as a caller sees it *)

Lemma sorted_firstn {A : Type} (R : A -> A -> Prop) (n : nat) (l : list A) :
  StronglySorted R l -> StronglySorted R (firstn n l).
Proof.
  intros H. revert n. induction H as [|x l Hs IH Hx]; intros [|n]; simpl;
    try constructor.
  - apply IH.
  - apply Forall_forall. intros y Hy. apply in_firstn in Hy.
    exact (proj1 (Forall_forall _ _) Hx y Hy).
Qed.

Lemma sorted_filter {A : Type} (R : A -> A -> Prop) (f : A -> bool)
      (l : list A) :
  StronglySorted R l -> StronglySorted R (filter f l).
Proof.
  induction 1 as [|x l Hs IH Hx]; simpl; [constructor |].
  destruct (f x); [| exact IH]. constructor; [exact IH |].
  apply Forall_forall. intros y Hy. apply filter_In in Hy as [Hy _].
  exact (proj1 (Forall_forall _ _) Hx y Hy).
Qed.

Lemma sorted_map_key {A : Type} (key : A -> nat) (l : list A) :
  StronglySorted (fun a b => key b <= key a) l ->
  StronglySorted ge (map key l).
Proof.
  induction 1 as [|x l Hs IH Hx]; simpl; constructor; [exact IH |].
  apply Forall_forall. intros k Hk.
  apply in_map_iff in Hk as (y & <- & Hy).
  exact (proj1 (Forall_forall _ _) Hx y Hy).
Qed.

Lemma resolved_connections (ns : list Node.t) (L : list (string * nat))
      (T : list Stats.Entry) :
  Forall2 (resolved_as ns) L T -> map Stats.connections T = map snd L.
Proof.
  induction 1 as [|ic e L T (n & _ & ->) HF IH]; simpl;
    [reflexivity | now rewrite IH].
Qed.

(** The entries of [top_connected] come in non-increasing order of their
    connection count, each count is the degree of the entry's id in the
    edge list and at least 1, and every entry describes a node of the
    graph. *)
Theorem top_connected_descending (w : World) :
  exists stats,
    get_statistics w = (inr stats, w)
    /\ StronglySorted ge (map Stats.connections (Stats.top_connected stats))
    /\ Forall (fun e =>
                 exists n,
                   In n (nodes (self w))
                   /\ e = entry_of n (Stats.connections e)
                   /\ Stats.connections e
                      = count_occ string_dec (endpoints (edges (self w)))
                                  (Node.id n)
                   /\ 1 <= Stats.connections e)
              (Stats.top_connected stats).
Proof.
  eexists. split; [apply get_statistics_run |].
  cbn [Stats.top_connected].
  set (ranked := sorted_reverse snd _).
  pose proof (resolve_top_spec (nodes (self w)) (firstn 5 ranked)) as Hres.
  assert (Permutation ranked (Dict.items (connectivity_of (edges (self w)))))
    as Hperm by apply sorted_reverse_perm.
  split.
  - rewrite (resolved_connections _ _ _ Hres).
    apply sorted_map_key, sorted_filter, sorted_firstn.
    apply sorted_reverse_sorted.
  - assert (forall ic, In ic (filter (resolves (nodes (self w)))
                                     (firstn 5 ranked)) ->
                       snd ic = count_occ string_dec
                                  (endpoints (edges (self w))) (fst ic)
                       /\ 1 <= snd ic) as Hcount.
    { intros ic Hic. apply filter_In in Hic as [Hic _].
      apply in_firstn in Hic. apply (Permutation_in _ Hperm) in Hic.
      rewrite connectivity_items in Hic.
      apply in_map_iff in Hic as (k & <- & Hk).
      cbn [fst snd]. split; [reflexivity |].
      apply (proj1 (first_seen_in _ _)) in Hk.
      apply (proj1 (count_occ_In string_dec _ _)) in Hk. exact Hk. }
    induction Hres as [|ic e L T (n & Hn & He) HF IH]; constructor.
    + destruct (Hcount ic (or_introl eq_refl)) as [Hc Hpos].
      unfold lookup_node in Hn. pose proof (find_some _ _ Hn) as [Hin Hid].
      apply String.eqb_eq in Hid.
      exists n. subst e. cbn [entry_of Stats.connections].
      split; [exact Hin |]. split; [reflexivity |].
      split; [now rewrite Hid |]. exact Hpos.
    + apply IH. intros ic' Hic'. apply Hcount. now right.
Qed.

(** ** What extraction keeps *)

Lemma same_core_refl (n : Node.t) : same_core n n.
Proof. unfold same_core. tauto. Qed.

Lemma same_core_list_refl (ns : list Node.t) : Forall2 same_core ns ns.
Proof. induction ns; constructor; auto using same_core_refl. Qed.

Lemma same_core_trans (a b c : Node.t) :
  same_core a b -> same_core b c -> same_core a c.
Proof.
  unfold same_core. intros (A1 & A2 & A3 & A4 & A5 & A6)
                           (B1 & B2 & B3 & B4 & B5 & B6).
  repeat split; try congruence. auto.
Qed.

Lemma same_core_list_trans (l1 l2 l3 : list Node.t) :
  Forall2 same_core l1 l2 -> Forall2 same_core l2 l3 -> Forall2 same_core l1 l3.
Proof.
  intros H. revert l3. induction H as [|a b l1 l2 Hab H IH]; intros l3 H3;
    inversion H3; subst; constructor; eauto using same_core_trans.
Qed.

Lemma same_core_wf (a b : Node.t) : same_core a b -> node_wf a -> node_wf b.
Proof.
  unfold same_core, node_wf, start_line_of.
  intros (A1 & A2 & A3 & A4 & A5 & A6) (W1 & W2 & W3).
  rewrite <- A1, <- A2, <- A3, <- A4, <- A5. auto.
Qed.

Lemma same_core_is_decl (l l' : list Node.t) :
  Forall2 same_core l l' ->
  List.length (filter is_decl l') = List.length (filter is_decl l).
Proof.
  induction 1 as [|a b l l' (_ & Ht & _) H IH]; [reflexivity |].
  cbn [filter].
  assert (is_decl b = is_decl a) as -> by (unfold is_decl; now rewrite Ht).
  destruct (is_decl a); cbn [List.length]; now rewrite IH.
Qed.

Lemma same_core_in (l l' : list Node.t) (a : Node.t) :
  Forall2 same_core l l' -> In a l -> exists b, In b l' /\ same_core a b.
Proof.
  induction 1 as [|x y l l' Hxy H IH]; intros Hin; [contradiction |].
  destruct Hin as [-> | Hin].
  - exists y. split; [now left | exact Hxy].
  - destruct (IH Hin) as (b & Hb & Hab). exists b. split; [now right | exact Hab].
Qed.

Lemma store_imports_core (fid : string) (imports : list string)
      (ns ns' : list Node.t) :
  store_imports fid imports ns = inr ns' -> Forall2 same_core ns ns'.
Proof.
  revert ns'. induction ns as [|x ns IH]; simpl; intros ns'.
  - intros [= <-]. constructor.
  - destruct (String.eqb (Node.id x) fid).
    + destruct (Node.metadata x) as [md |]; [| discriminate].
      intros [= <-]. constructor; [| apply same_core_list_refl].
      unfold same_core. cbn. repeat split. discriminate.
    + destruct (store_imports fid imports ns) as [e | r]; [discriminate |].
      intros [= <-]. constructor; [apply same_core_refl | now apply IH].
Qed.

(** The nodes of a declaration loop, field by field. *)
Lemma declared_nodes kind label rel content (caps : list Capture) :
  kind = "class" \/ kind = "function" ->
  Forall (fun n => node_wf n /\ Node.type n = kind /\ Node.path n = rel
                   /\ Node.metadata n = Some Dict.empty)
         (fst (declared kind label rel content caps)).
Proof.
  intros Hkind. induction caps as [|m caps IH]; simpl; [constructor |].
  destruct (decl_node kind label rel content m) as [[e | n] |] eqn:E.
  - constructor.
  - destruct (declared kind label rel content caps) as [ns e].
    constructor; [| exact IH].
    unfold decl_node in E.
    destruct (String.eqb (snd m) label); [| discriminate].
    destruct (child_by_field_name (fst m) "name"); [| discriminate].
    destruct (Utf8.decode _); inversion E; subst n; clear E.
    unfold node_wf, start_line_of. cbn.
    assert (String.eqb kind "file" = false) as ->
        by (destruct Hkind as [-> | ->]; reflexivity).
    replace (fst (start_point (fst m)) + 1 - 1) with (fst (start_point (fst m)))
      by lia.
    repeat split; try discriminate.
    right. split; [exact Hkind | lia].
  - exact IH.
Qed.

Lemma extracted_decls_nodes tree fp content :
  Forall (fun n => node_wf n
                   /\ (Node.type n = "class" \/ Node.type n = "function")
                   /\ Node.path n = path_str fp
                   /\ Node.metadata n = Some Dict.empty)
         (extracted_decls tree fp content).
Proof.
  unfold extracted_decls. apply Forall_app. split.
  - eapply Forall_impl;
      [| apply (declared_nodes "class"); now left].
    simpl. intros n (A & B & C & D). auto.
  - destruct (snd (declared "class" _ _ _ _)); [constructor |].
    eapply Forall_impl;
      [| apply (declared_nodes "function"); now right].
    simpl. intros n (A & B & C & D). auto.
Qed.

Lemma file_node_wf (lang : string) (fp : Path) : node_wf (file_node_of lang fp).
Proof.
  unfold node_wf, file_node_of, start_line_of, file_id_of. cbn.
  repeat split; try discriminate. now left.
Qed.

(** What a single extraction leaves behind, field by field; it holds
    whether the extraction returns or raises. *)
Lemma extract_python_nodes_core tree fp content (w : World) :
  let w' := snd (extract_python_nodes tree fp content w) in
  let decls := extracted_decls tree fp content in
  exists olds fnode,
    nodes (self w') = olds ++ fnode :: decls
    /\ Forall2 same_core (nodes (self w)) olds
    /\ same_core (file_node_of (language (self w)) fp) fnode
    /\ edges (self w')
       = edges (self w) ++ map (contains_edge (file_id_of fp)) decls
    /\ root_path (self w') = root_path (self w)
    /\ language (self w') = language (self w)
    /\ exclude_patterns (self w') = exclude_patterns (self w)
    /\ stderr w' = stderr w.
Proof.
  intros w' decls. subst w'. rewrite extract_python_nodes_run. fold decls.
  set (w3 := with_graph w _ _).
  assert (exists olds fnode,
             nodes (self w3) = olds ++ fnode :: decls
             /\ Forall2 same_core (nodes (self w)) olds
             /\ same_core (file_node_of (language (self w)) fp) fnode
             /\ edges (self w3)
                = edges (self w) ++ map (contains_edge (file_id_of fp)) decls
             /\ root_path (self w3) = root_path (self w)
             /\ language (self w3) = language (self w)
             /\ exclude_patterns (self w3) = exclude_patterns (self w)
             /\ stderr w3 = stderr w)
    as Hw3.
  { exists (nodes (self w)), (file_node_of (language (self w)) fp).
    repeat split; auto using same_core_list_refl; discriminate. }
  destruct (snd (declared "class" _ _ _ _)); [exact Hw3 |].
  destruct (snd (declared "function" _ _ _ _)); [exact Hw3 |].
  destruct (fst (collect_imports _ _ _ _)) as [e | [|i imports]];
    try exact Hw3.
  destruct (store_imports (file_id_of fp) (i :: imports) (nodes (self w3)))
    as [e | ns] eqn:Hs; [exact Hw3 |].
  cbn [snd]. rewrite nodes_with_graph, edges_with_graph.
  subst w3. rewrite nodes_with_graph, edges_with_graph in *.
  destruct (in_dec string_dec (file_id_of fp) (map Node.id (nodes (self w))))
    as [Hin | Hnotin].
  - rewrite store_imports_earlier in Hs by exact Hin.
    destruct (store_imports (file_id_of fp) (i :: imports) (nodes (self w)))
      as [e | olds] eqn:Ho; [discriminate |].
    injection Hs as <-.
    exists olds, (file_node_of (language (self w)) fp).
    apply store_imports_core in Ho.
    repeat split; auto; discriminate.
  - rewrite (store_imports_here _ _ _ (file_node_of (language (self w)) fp)
                                 _ Hnotin eq_refl) in Hs.
    cbn [file_node_of Node.metadata] in Hs. injection Hs as <-.
    eexists (nodes (self w)), _.
    repeat split; auto using same_core_list_refl; discriminate.
Qed.

Lemma edge_wf_mono (ns ns' : list Node.t) (e : Edge.t) :
  (forall a, In a ns -> exists b, In b ns' /\ same_core a b) ->
  edge_wf ns e -> edge_wf ns' e.
Proof.
  intros Hsub (Ht & f & d & Hf & Hd & Hft & Hfi & Hdt & Hdi & Hp).
  destruct (Hsub f Hf) as (f' & Hf' & (F1 & F2 & _ & F4 & _)).
  destruct (Hsub d Hd) as (d' & Hd' & (D1 & D2 & _ & D4 & _)).
  split; [exact Ht |]. exists f', d'.
  repeat split; try assumption; try congruence.
Qed.

(** Extraction keeps a well-formed graph well-formed. *)
Lemma extract_python_nodes_wf tree fp content (w : World) :
  graph_wf (self w) ->
  graph_wf (self (snd (extract_python_nodes tree fp content w))).
Proof.
  intros (Hn & He & Hl).
  destruct (extract_python_nodes_core tree fp content w)
    as (olds & fnode & Hnodes & Holds & Hf & Hedges & _).
  pose proof (extracted_decls_nodes tree fp content) as Hd.
  set (decls := extracted_decls tree fp content) in *.
  unfold graph_wf. rewrite Hnodes, Hedges.
  assert (forall a, In a (nodes (self w)) ->
                    exists b, In b (olds ++ fnode :: decls) /\ same_core a b)
    as Hsub.
  { intros a Ha. destruct (same_core_in _ _ a Holds Ha) as (b & Hb & Hab).
    exists b. split; [apply in_or_app; now left | exact Hab]. }
  split; [| split].
  - apply Forall_app. split.
    + clear -Hn Holds. induction Holds as [|a b l l' Hab H IH];
        constructor; inversion Hn; subst; eauto using same_core_wf.
    + constructor.
      * exact (same_core_wf _ _ Hf (file_node_wf _ _)).
      * eapply Forall_impl; [| exact Hd]. simpl. tauto.
  - apply Forall_app. split.
    + eapply Forall_impl; [| exact He]. intros e. now apply edge_wf_mono.
    + apply Forall_forall. intros e Hin.
      apply in_map_iff in Hin as (d & <- & Hdin).
      pose proof (proj1 (Forall_forall _ _) Hd d Hdin) as (_ & Hdt & Hdp & _).
      destruct Hf as (F1 & F2 & _ & F4 & _). cbn in F1, F2, F4.
      split; [reflexivity |]. exists fnode, d.
      repeat split; try (now symmetry); try assumption.
      * apply in_or_app. right. now left.
      * apply in_or_app. right. now right.
      * congruence.
  - rewrite length_app, length_map, filter_app, length_app.
    rewrite (same_core_is_decl _ _ Holds), Hl. cbn [filter].
    destruct Hf as (_ & F2 & _). cbn in F2.
    assert (is_decl fnode = false) as ->
        by (unfold is_decl; now rewrite <- F2).
    assert (filter is_decl decls = decls) as ->; [| lia].
    apply filter_all. intros d Hdin.
    pose proof (proj1 (Forall_forall _ _) Hd d Hdin) as (_ & Hdt & _).
    unfold is_decl. now destruct Hdt as [-> | ->].
Qed.

(** ** What the builder keeps *)

Lemma grows_refl (g : Generator) : grows g g.
Proof.
  unfold grows. repeat split; auto.
  - exists (nodes g), []. split; [now rewrite app_nil_r |].
    apply same_core_list_refl.
  - exists []. now rewrite app_nil_r.
Qed.

Lemma same_core_list_app_l (l l1 l2 : list Node.t) :
  Forall2 same_core (l1 ++ l2) l ->
  exists l1' l2',
    l = l1' ++ l2' /\ Forall2 same_core l1 l1' /\ Forall2 same_core l2 l2'.
Proof.
  intros H. apply Forall2_app_inv_l in H as (l1' & l2' & H1 & H2 & ->).
  now exists l1', l2'.
Qed.

Lemma grows_trans (g1 g2 g3 : Generator) :
  grows g1 g2 -> grows g2 g3 -> grows g1 g3.
Proof.
  intros ((o1 & n1 & Hn1 & Ho1) & (e1 & He1) & R1 & L1 & X1)
         ((o2 & n2 & Hn2 & Ho2) & (e2 & He2) & R2 & L2 & X2).
  unfold grows. repeat split; try congruence.
  - rewrite Hn1 in Ho2.
    apply same_core_list_app_l in Ho2 as (o1' & n1' & -> & Ha & Hb).
    exists o1', (n1' ++ n2). split; [now rewrite Hn2, <- app_assoc |].
    eapply same_core_list_trans; eassumption.
  - exists (e1 ++ e2). now rewrite He2, He1, <- app_assoc.
Qed.

Lemma extract_python_nodes_grows tree fp content (w : World) :
  grows (self w) (self (snd (extract_python_nodes tree fp content w))).
Proof.
  destruct (extract_python_nodes_core tree fp content w)
    as (olds & fnode & Hn & Ho & _ & He & Hr & Hl & Hx & _).
  unfold grows. repeat split; try assumption.
  - eexists olds, _. split; [exact Hn | exact Ho].
  - eexists. exact He.
Qed.

(** The world after one file: at most one line more on the error stream,
    about that file, and a generator that is the old one or the one an
    extraction of that file leaves. *)
Lemma process_file_world env (f : Path) (w : World) :
  exists g' out,
    snd (process_file env f w) = mkWorld g' (stderr w ++ out)
    /\ List.length out <= 1
    /\ Forall (fun l => fst l = f) out
    /\ (g' = self w
        \/ language (self w) = "python"
           /\ exists content tree,
               read_bytes env f = inr content
               /\ parser_parse env content = inr tree
               /\ g' = self (snd (extract_python_nodes tree f content w))).
Proof.
  unfold process_file, try_except, bind.
  destruct (read_bytes env f) as [e | content] eqn:Hr; cbn [lift raise ret].
  { exists (self w), [(f, e)].
    split; [reflexivity |]. split; [simpl; lia |].
    split; [| now left]. constructor; [reflexivity | constructor]. }
  destruct (parser_parse env content) as [e | tree] eqn:Hp;
    cbn [lift raise ret].
  { exists (self w), [(f, e)].
    split; [reflexivity |]. split; [simpl; lia |].
    split; [| now left]. constructor; [reflexivity | constructor]. }
  cbn [get_self].
  destruct (String.eqb_spec (language (self w)) "python") as [Hlang | Hlang].
  - pose proof (extract_python_nodes_core tree f content w)
      as (_ & _ & _ & _ & _ & _ & _ & _ & _ & Herr).
    assert (language (self w) = "python"
            /\ exists content0 tree0,
                read_bytes env f = inr content0
                /\ parser_parse env content0 = inr tree0
                /\ self (snd (extract_python_nodes tree f content w))
                   = self (snd (extract_python_nodes tree0 f content0 w)))
      as Hcase.
    { split; [exact Hlang |]. exists content, tree. auto. }
    destruct (extract_python_nodes tree f content w) as [[e | []] w1];
      cbn [snd] in *.
    + exists (self w1), [(f, e)].
      split; [unfold print_err; cbn [snd]; now rewrite Herr |].
      split; [simpl; lia |].
      split; [| right; rewrite <- Hr; exact Hcase].
      constructor; [reflexivity | constructor].
    + exists (self w1), []. rewrite app_nil_r, <- Herr.
      split; [now destruct w1 |]. split; [simpl; lia |].
      split; [constructor | right; rewrite <- Hr; exact Hcase].
  - exists (self w), []. rewrite app_nil_r.
    split; [now destruct w |]. split; [simpl; lia |].
    split; [constructor | now left].
Qed.

(** A relation that extraction respects is respected by the whole loop. *)
Lemma for_each_process_file_rel env (R : Generator -> Generator -> Prop) :
  (forall g, R g g) ->
  (forall g1 g2 g3, R g1 g2 -> R g2 g3 -> R g1 g3) ->
  (forall tree f content w,
      R (self w) (self (snd (extract_python_nodes tree f content w)))) ->
  forall files w,
    R (self w) (self (snd (for_each files (process_file env) w))).
Proof.
  intros Hrefl Htrans Hstep files.
  induction files as [|f files IH]; intros w; [apply Hrefl |].
  cbn [for_each]. unfold bind.
  pose proof (process_file_returns env f w) as Hret.
  destruct (process_file_world env f w) as (g' & out & Hw & _ & _ & Hg).
  destruct (process_file env f w) as [[e | []] w1]; [discriminate |].
  cbn [snd] in Hw. apply Htrans with (g2 := self w1); [| apply IH].
  rewrite Hw. cbn [self].
  destruct Hg as [-> | (_ & content & tree & _ & _ & ->)];
    [apply Hrefl | apply Hstep].
Qed.

Lemma for_each_process_file_grows env (files : list Path) (w : World) :
  grows (self w) (self (snd (for_each files (process_file env) w))).
Proof.
  apply for_each_process_file_rel;
    eauto using grows_refl, grows_trans, extract_python_nodes_grows.
Qed.

Lemma for_each_process_file_wf env (files : list Path) (w : World) :
  graph_wf (self w) ->
  graph_wf (self (snd (for_each files (process_file env) w))).
Proof.
  revert w.
  apply (for_each_process_file_rel
           env (fun g g' => graph_wf g -> graph_wf g')); auto.
  intros tree f content w. apply extract_python_nodes_wf.
Qed.


Lemma fresh_graph_wf (root : Path) (lang : string)
      (exclude : option (list string)) :
  graph_wf (init root lang exclude).
Proof. unfold graph_wf, init. cbn. repeat split; constructor. Qed.

Lemma generate_result env (patterns : list string) (w : World) :
  exists files,
    find_files env patterns w = (inr files, w)
    /\ let w' := snd (for_each files (process_file env) w) in
       generate env patterns w
       = (inr (Graph.mk (nodes (self w')) (edges (self w'))
                 (Graph.mkMetadata (now_isoformat env) (language (self w'))
                                   (root_path (self w')) (List.length files)
                                   (List.length (nodes (self w')))
                                   (List.length (edges (self w'))))),
          w').
Proof.
  eexists. split; [apply find_files_run |].
  apply generate_run. reflexivity.
Qed.


Lemma generate_wf env (patterns : list string) (w : World) :
  graph_wf (self w) ->
  exists G w',
    generate env patterns w = (inr G, w')
    /\ Graph.nodes G = nodes (self w')
    /\ Graph.edges G = edges (self w')
    /\ Graph.node_count (Graph.metadata G) = List.length (nodes (self w'))
    /\ Graph.edge_count (Graph.metadata G) = List.length (edges (self w'))
    /\ graph_wf (self w').
Proof.
  intros Hwf.
  destruct (generate_result env patterns w) as (files & _ & Hgen).
  cbv zeta in Hgen. eexists. eexists. split; [exact Hgen |].
  cbn [Graph.nodes Graph.edges Graph.metadata Graph.node_count
       Graph.edge_count].
  repeat split; try reflexivity; now apply for_each_process_file_wf.
Qed.

(** No dangling edge: in the graph [generate] returns for a well-formed
    generator (a new one in particular), every edge has type contains,
    its source is the id of a file node of the graph and its target the id
    of a class or function node of the graph with the same path. *)
Theorem generated_edges_closed env (patterns : list string) (w : World) :
  graph_wf (self w) ->
  exists G w',
    generate env patterns w = (inr G, w')
    /\ forall e, In e (Graph.edges G) ->
         Edge.type e = "contains"
         /\ In (Edge.source e) (map Node.id (Graph.nodes G))
         /\ In (Edge.target e) (map Node.id (Graph.nodes G))
         /\ exists f d,
             In f (Graph.nodes G) /\ In d (Graph.nodes G)
             /\ Node.type f = "file" /\ Node.id f = Edge.source e
             /\ (Node.type d = "class" \/ Node.type d = "function")
             /\ Node.id d = Edge.target e
             /\ Node.path f = Node.path d.
Proof.
  intros Hwf.
  destruct (generate_wf env patterns w Hwf)
    as (G & w' & Hgen & Hn & He & _ & _ & (_ & Hedges & _)).
  exists G, w'. split; [exact Hgen |].
  intros e Hin. rewrite He in Hin. rewrite Hn.
  pose proof (proj1 (Forall_forall _ _) Hedges e Hin)
    as (Ht & f & d & Hf & Hd & Hft & Hfi & Hdt & Hdi & Hp).
  split; [exact Ht |].
  split; [rewrite <- Hfi; now apply in_map |].
  split; [rewrite <- Hdi; now apply in_map |].
  exists f, d. repeat split; assumption.
Qed.

Lemma generated_edges_closed_witness :
  exists G w',
    generate sample_env ["**/*.py"] fresh_world = (inr G, w')
    /\ forall e, In e (Graph.edges G) ->
         In (Edge.source e) (map Node.id (Graph.nodes G))
         /\ In (Edge.target e) (map Node.id (Graph.nodes G)).
Proof.
  destruct (generated_edges_closed sample_env ["**/*.py"] fresh_world
              (fresh_graph_wf _ _ _)) as (G & w' & Hgen & Hall).
  exists G, w'. split; [exact Hgen |].
  intros e He. destruct (Hall e He) as (_ & Hs & Ht & _). now split.
Defined.

(** Ids can be recomputed: in the graph [generate] returns for a
    well-formed generator, every node is a file node at line 0, column 0
    or a class or function node at a line of at least 1, its id is
    [generate_id] of its own type, path and name and of start line 0 for a
    file and [line - 1] for a declaration, and its metadata is a dict. *)
Theorem generated_ids_recomputable env (patterns : list string) (w : World) :
  graph_wf (self w) ->
  exists G w',
    generate env patterns w = (inr G, w')
    /\ forall n, In n (Graph.nodes G) ->
         (Node.type n = "file" /\ Node.location n = mkLocation 0 0
          /\ Node.id n = generate_id "file" (Node.path n) (Node.name n) 0
          \/ (Node.type n = "class" \/ Node.type n = "function")
             /\ 1 <= line (Node.location n)
             /\ Node.id n
                = generate_id (Node.type n) (Node.path n) (Node.name n)
                              (Z.of_nat (line (Node.location n) - 1)))
         /\ Node.metadata n <> None.
Proof.
  intros Hwf.
  destruct (generate_wf env patterns w Hwf)
    as (G & w' & Hgen & Hn & _ & _ & _ & (Hnodes & _)).
  exists G, w'. split; [exact Hgen |].
  intros n Hin. rewrite Hn in Hin.
  pose proof (proj1 (Forall_forall _ _) Hnodes n Hin) as (Hk & Hid & Hmd).
  split; [| exact Hmd].
  unfold start_line_of in Hid.
  destruct Hk as [(Ht & Hloc) | (Ht & Hline)].
  - left. rewrite Ht in Hid. cbn in Hid. rewrite Ht at 1. auto.
  - right. split; [exact Ht |]. split; [exact Hline |].
    destruct Ht as [Ht | Ht]; rewrite Ht in Hid at 2; cbn in Hid; exact Hid.
Qed.

Lemma generated_ids_recomputable_witness :
  exists G w',
    generate sample_env ["**/*.py"] fresh_world = (inr G, w')
    /\ forall n, In n (Graph.nodes G) -> Node.metadata n <> None.
Proof.
  destruct (generated_ids_recomputable sample_env ["**/*.py"] fresh_world
              (fresh_graph_wf _ _ _)) as (G & w' & Hgen & Hall).
  exists G, w'. split; [exact Hgen |].
  intros n Hn. exact (proj2 (Hall n Hn)).
Defined.

Lemma filter_partition_length {A : Type} (f : A -> bool) (l : list A) :
  List.length l
  = List.length (filter f l) + List.length (filter (fun x => negb (f x)) l).
Proof.
  induction l as [|x l IH]; simpl; [reflexivity |].
  destruct (f x); simpl; lia.
Qed.

(** Counts: in the graph [generate] returns for a well-formed generator,
    [edge_count] is the number of class and function nodes and
    [node_count] is [edge_count] plus the number of file nodes. *)
Theorem generated_edge_count env (patterns : list string) (w : World) :
  graph_wf (self w) ->
  exists G w',
    generate env patterns w = (inr G, w')
    /\ Graph.edge_count (Graph.metadata G)
       = List.length (filter (fun n => negb (String.eqb (Node.type n) "file"))
                             (Graph.nodes G))
    /\ Graph.node_count (Graph.metadata G)
       = Graph.edge_count (Graph.metadata G)
         + List.length (filter (fun n => String.eqb (Node.type n) "file")
                               (Graph.nodes G)).
Proof.
  intros Hwf.
  destruct (generate_wf env patterns w Hwf)
    as (G & w' & Hgen & Hn & _ & Hnc & Hec & (_ & _ & Hlen)).
  exists G, w'. split; [exact Hgen |].
  rewrite Hnc, Hec, Hn, Hlen. split; [reflexivity |].
  rewrite (filter_partition_length
             (fun n => String.eqb (Node.type n) "file") (nodes (self w'))).
  unfold is_decl. lia.
Qed.

Lemma generated_edge_count_witness :
  exists G w',
    generate sample_env ["**/*.py"] fresh_world = (inr G, w')
    /\ Graph.edge_count (Graph.metadata G)
       = List.length (filter (fun n => negb (String.eqb (Node.type n) "file"))
                             (Graph.nodes G)).
Proof.
  destruct (generated_edge_count sample_env ["**/*.py"] fresh_world
              (fresh_graph_wf _ _ _)) as (G & w' & Hgen & He & _).
  exists G, w'. split; [exact Hgen | exact He].
Defined.

(** ** The report of a generated graph *)

Lemma resolve_top_closed (ns : list Node.t) (es : list Edge.t) :
  (forall k, In k (endpoints es) -> In k (map Node.id ns)) ->
  let ranked := sorted_reverse snd (Dict.items (connectivity_of es)) in
  Forall2 (resolved_as ns) (firstn 5 ranked)
          (resolve_top ns (firstn 5 ranked))
  /\ List.length (resolve_top ns (firstn 5 ranked))
     = Nat.min 5 (List.length (first_seen (endpoints es))).
Proof.
  intros Hclosed ranked.
  pose proof (resolve_top_spec ns (firstn 5 ranked)) as Hres.
  assert (Permutation ranked (Dict.items (connectivity_of es))) as Hperm
      by apply sorted_reverse_perm.
  assert (filter (resolves ns) (firstn 5 ranked) = firstn 5 ranked) as Hall.
  { apply filter_all. intros [k c] Hin.
    destruct (resolves ns (k, c)) eqn:E; [reflexivity |].
    apply resolves_false in E. exfalso. apply E. apply Hclosed. simpl.
    apply connectivity_keys. apply in_firstn in Hin.
    apply (Permutation_in _ Hperm) in Hin.
    unfold Dict.keys. apply in_map_iff. now exists (k, c). }
  rewrite Hall in Hres. split; [exact Hres |].
  apply Forall2_length in Hres. rewrite <- Hres, length_firstn.
  f_equal. rewrite (Permutation_length Hperm).
  rewrite connectivity_items. apply length_map.
Qed.

(** On a graph built by [generate] from a well-formed generator the
    ranking loses nothing: every one of the first five ranked ids names a
    node, so [top_connected] has five entries, or as many as there are ids
    on edges when these are fewer. *)
Theorem generated_top_connected_complete env (patterns : list string)
        (w : World) :
  graph_wf (self w) ->
  exists G w' stats,
    generate env patterns w = (inr G, w')
    /\ get_statistics w' = (inr stats, w')
    /\ Forall2 (resolved_as (Graph.nodes G))
               (firstn 5 (sorted_reverse snd
                            (Dict.items (connectivity_of (Graph.edges G)))))
               (Stats.top_connected stats)
    /\ List.length (Stats.top_connected stats)
       = Nat.min 5 (List.length (first_seen (endpoints (Graph.edges G)))).
Proof.
  intros Hwf.
  destruct (generate_wf env patterns w Hwf)
    as (G & w' & Hgen & Hn & He & _ & _ & (_ & Hedges & _)).
  exists G, w'. eexists. split; [exact Hgen |].
  split; [apply get_statistics_run |].
  cbn [Stats.top_connected]. rewrite Hn, He.
  apply resolve_top_closed.
  intros k Hk. unfold endpoints in Hk.
  apply in_flat_map in Hk as (e & Hin & Hk).
  pose proof (proj1 (Forall_forall _ _) Hedges e Hin)
    as (_ & f & d & Hf & Hd & _ & Hfi & _ & Hdi & _).
  destruct Hk as [<- | [<- | []]].
  - rewrite <- Hfi. now apply in_map.
  - rewrite <- Hdi. now apply in_map.
Qed.

Lemma generated_top_connected_complete_witness :
  exists G w' stats,
    generate sample_env ["**/*.py"] fresh_world = (inr G, w')
    /\ get_statistics w' = (inr stats, w')
    /\ List.length (Stats.top_connected stats) = 5.
Proof.
  destruct (generated_top_connected_complete
              sample_env ["**/*.py"] fresh_world (fresh_graph_wf _ _ _))
    as (G & w' & stats & Hgen & Hstats & _ & Hlen).
  exists G, w', stats. split; [exact Hgen |]. split; [exact Hstats |].
  rewrite Hlen. generalize Hgen. vm_compute. intros [= <- _]. reflexivity.
Defined.

(** ** Languages other than Python *)

Lemma for_each_process_file_other_language env (files : list Path)
      (w : World) :
  language (self w) <> "python" ->
  self (snd (for_each files (process_file env) w)) = self w.
Proof.
  revert w. induction files as [|f files IH]; intros w Hlang; [reflexivity |].
  cbn [for_each]. unfold bind.
  pose proof (process_file_returns env f w) as Hret.
  destruct (process_file_world env f w) as (g' & out & Hw & _ & _ & Hg).
  destruct (process_file env f w) as [[e | []] w1]; [discriminate |].
  cbn [snd] in Hw.
  destruct Hg as [-> | (Hpy & _)]; [| contradiction].
  assert (self w1 = self w) as Hself by now rewrite Hw.
  rewrite IH; [exact Hself | now rewrite Hself].
Qed.

(** Only Python is extracted: for a generator of any other language
    [generate] reads and parses the discovered files and counts them in
    [files_processed], but adds no node and no edge. *)
Theorem other_language_extracts_nothing env (patterns : list string)
        (w : World) :
  language (self w) <> "python" ->
  exists files G w',
    find_files env patterns w = (inr files, w)
    /\ generate env patterns w = (inr G, w')
    /\ self w' = self w
    /\ Graph.nodes G = nodes (self w)
    /\ Graph.edges G = edges (self w)
    /\ Graph.files_processed (Graph.metadata G) = List.length files.
Proof.
  intros Hlang.
  destruct (generate_result env patterns w) as (files & Hfiles & Hgen).
  cbv zeta in Hgen.
  pose proof (for_each_process_file_other_language env files w Hlang) as Hself.
  eexists files, _, _. split; [exact Hfiles |]. split; [exact Hgen |].
  cbn [Graph.nodes Graph.edges Graph.metadata Graph.files_processed].
  rewrite Hself. repeat split.
Qed.

Lemma other_language_extracts_nothing_witness :
  exists G w',
    generate sample_env ["**/*.py"] go_world = (inr G, w')
    /\ Graph.nodes G = [] /\ Graph.edges G = []
    /\ Graph.files_processed (Graph.metadata G) = 3.
Proof.
  destruct (other_language_extracts_nothing sample_env ["**/*.py"] go_world)
    as (files & G & w' & Hfiles & Hgen & _ & Hn & He & Hc).
  { discriminate. }
  exists G, w'. split; [exact Hgen |]. split; [exact Hn |].
  split; [exact He |]. rewrite Hc.
  generalize Hfiles. vm_compute. intros [= <-]. reflexivity.
Defined.

(** ** Failures inside extraction *)

Lemma process_file_python env (f : Path) (content : list Byte.byte)
      (tree : Tree) (w : World) :
  language (self w) = "python" ->
  read_bytes env f = inr content ->
  parser_parse env content = inr tree ->
  process_file env f w
  = match extract_python_nodes tree f content w with
    | (inr _, w1) => (inr tt, w1)
    | (inl e, w1) => (inr tt, mkWorld (self w1) (stderr w1 ++ [(f, e)]))
    end.
Proof.
  intros Hlang Hr Hp. unfold process_file, try_except, bind.
  rewrite Hr. cbn [lift ret]. rewrite Hp. cbn [lift ret get_self].
  rewrite Hlang. cbn [String.eqb Ascii.eqb Bool.eqb].
  destruct (extract_python_nodes tree f content w) as [[e | []] w1];
    reflexivity.
Qed.

(** An exception raised inside [extract_python_nodes] is caught and
    reported like a read or parse error, but what the extraction had
    appended stays: the file node, and the declaration nodes and edges
    emitted before the exception, remain in the graph. *)
Theorem extraction_failure_keeps_partial_nodes env (f : Path)
        (content : list Byte.byte) (tree : Tree) (e : Exn) (w : World) :
  language (self w) = "python" ->
  read_bytes env f = inr content ->
  parser_parse env content = inr tree ->
  fst (extract_python_nodes tree f content w) = inl e ->
  exists g' olds fnode,
    process_file env f w = (inr tt, mkWorld g' (stderr w ++ [(f, e)]))
    /\ nodes g' = olds ++ fnode :: extracted_decls tree f content
    /\ List.length olds = List.length (nodes (self w))
    /\ Node.id fnode = file_id_of f
    /\ Node.type fnode = "file"
    /\ edges g'
       = edges (self w)
         ++ map (contains_edge (file_id_of f)) (extracted_decls tree f content)
    /\ List.length (nodes (self w)) < List.length (nodes g').
Proof.
  intros Hlang Hr Hp Hfail.
  rewrite (process_file_python env f content tree w Hlang Hr Hp).
  destruct (extract_python_nodes_core tree f content w)
    as (olds & fnode & Hn & Ho & Hf & He & _ & _ & _ & Herr).
  destruct (extract_python_nodes tree f content w) as [[e' | []] w1];
    cbn [fst snd] in *; [| discriminate].
  injection Hfail as ->.
  exists (self w1), olds, fnode. rewrite Herr.
  destruct Hf as (F1 & F2 & _).
  pose proof (Forall2_length Ho) as Hlen.
  repeat split; auto.
  rewrite Hn, length_app. cbn [List.length]. lia.
Qed.

Lemma extraction_failure_keeps_partial_nodes_witness :
  exists g',
    process_file broken_env ["broken.py"] fresh_world
    = (inr tt, mkWorld g' [(["broken.py"], UnicodeDecodeError)])
    /\ List.length (nodes g') = 1.
Proof.
  destruct (extraction_failure_keeps_partial_nodes
              broken_env ["broken.py"] broken_source broken_tree
              UnicodeDecodeError fresh_world)
    as (g' & olds & fnode & Hrun & Hn & Hlen & _); try reflexivity.
  exists g'. split; [exact Hrun |].
  rewrite Hn, length_app, Hlen. reflexivity.
Defined.

(** ** A path discovered twice *)

Lemma for_each_process_file_app env (a b : list Path) (w : World) :
  for_each (a ++ b) (process_file env) w
  = for_each b (process_file env) (snd (for_each a (process_file env) w)).
Proof.
  rewrite for_each_app.
  pose proof (for_each_process_file_returns env a w) as Hret.
  destruct (for_each a (process_file env) w) as [[e | []] w1];
    [discriminate | reflexivity].
Qed.

Lemma for_each_process_file_cons env (f : Path) (files : list Path)
      (w : World) :
  for_each (f :: files) (process_file env) w
  = for_each files (process_file env) (snd (process_file env f w)).
Proof.
  cbn [for_each]. unfold bind.
  pose proof (process_file_returns env f w) as Hret.
  destruct (process_file env f w) as [[e | []] w1];
    [discriminate | reflexivity].
Qed.

Lemma same_core_ids (l l' : list Node.t) :
  Forall2 same_core l l' -> map Node.id l' = map Node.id l.
Proof.
  induction 1 as [|a b l l' (Hid & _) H IH]; simpl; [reflexivity |].
  now rewrite IH, Hid.
Qed.

Lemma grows_count (g g' : Generator) (k : string) :
  grows g g' ->
  count_occ string_dec (map Node.id (nodes g)) k
  <= count_occ string_dec (map Node.id (nodes g')) k.
Proof.
  intros ((olds & news & Hn & Ho) & _).
  rewrite Hn, map_app, count_occ_app, (same_core_ids _ _ Ho). lia.
Qed.

Lemma process_file_python_count env (f : Path) (content : list Byte.byte)
      (tree : Tree) (w : World) :
  language (self w) = "python" ->
  read_bytes env f = inr content ->
  parser_parse env content = inr tree ->
  let w' := snd (process_file env f w) in
  language (self w') = "python"
  /\ count_occ string_dec (map Node.id (nodes (self w))) (file_id_of f) + 1
     <= count_occ string_dec (map Node.id (nodes (self w'))) (file_id_of f).
Proof.
  intros Hlang Hr Hp w'. subst w'.
  rewrite (process_file_python env f content tree w Hlang Hr Hp).
  destruct (extract_python_nodes_core tree f content w)
    as (olds & fnode & Hn & Ho & (Hid & _) & _ & _ & Hl & _).
  cbn in Hid.
  destruct (extract_python_nodes tree f content w) as [[e | []] w1];
    cbn [snd self] in *.
  - split; [congruence |].
    rewrite Hn, map_app, count_occ_app, (same_core_ids _ _ Ho).
    cbn [map count_occ]. rewrite <- Hid.
    destruct (string_dec (file_id_of f) (file_id_of f)); [lia | congruence].
  - split; [congruence |].
    rewrite Hn, map_app, count_occ_app, (same_core_ids _ _ Ho).
    cbn [map count_occ]. rewrite <- Hid.
    destruct (string_dec (file_id_of f) (file_id_of f)); [lia | congruence].
Qed.

Lemma for_each_process_file_language env (files : list Path) (w : World) :
  language (self (snd (for_each files (process_file env) w)))
  = language (self w).
Proof.
  pose proof (for_each_process_file_grows env files w) as (_ & _ & _ & Hl & _).
  exact Hl.
Qed.

(** Ids are unique only as long as no path is found twice: when a
    readable, parsable Python file occurs twice in the list of discovered
    files, the graph holds two nodes with that file's id, whatever the
    other files are. *)
Theorem same_path_twice_duplicate_ids env (l1 l2 l3 : list Path) (f : Path)
        (content : list Byte.byte) (tree : Tree) (w : World) :
  language (self w) = "python" ->
  read_bytes env f = inr content ->
  parser_parse env content = inr tree ->
  let w' := snd (for_each (l1 ++ f :: l2 ++ f :: l3) (process_file env) w) in
  2 <= count_occ string_dec (map Node.id (nodes (self w'))) (file_id_of f)
  /\ ~ NoDup (map Node.id (nodes (self w'))).
Proof.
  intros Hlang Hr Hp w'.
  assert (2 <= count_occ string_dec (map Node.id (nodes (self w')))
                         (file_id_of f)) as Hcount.
  { subst w'.
    rewrite for_each_process_file_app, for_each_process_file_cons.
    rewrite for_each_process_file_app, for_each_process_file_cons.
    set (wa := snd (for_each l1 (process_file env) w)).
    assert (language (self wa) = "python") as Ha
        by (subst wa; now rewrite for_each_process_file_language).
    destruct (process_file_python_count env f content tree wa Ha Hr Hp)
      as (Hb & Hcb).
    set (wb := snd (process_file env f wa)) in *.
    set (wc := snd (for_each l2 (process_file env) wb)).
    assert (language (self wc) = "python") as Hc
        by (subst wc; now rewrite for_each_process_file_language).
    pose proof (grows_count _ _ (file_id_of f)
                  (for_each_process_file_grows env l2 wb)) as Hcc.
    fold wc in Hcc.
    destruct (process_file_python_count env f content tree wc Hc Hr Hp)
      as (Hd & Hcd).
    set (wd := snd (process_file env f wc)) in *.
    pose proof (grows_count _ _ (file_id_of f)
                  (for_each_process_file_grows env l3 wd)) as Hce.
    lia. }
  split; [exact Hcount |].
  intros Hnd.
  pose proof (proj1 (NoDup_count_occ string_dec _) Hnd (file_id_of f)). lia.
Qed.

Lemma same_path_twice_duplicate_ids_witness :
  ~ NoDup (map Node.id
             (nodes (self (snd (for_each ([] ++ ["mod.py"] :: [] ++ ["mod.py"] :: [])
                                         (process_file overlap_env)
                                         fresh_world))))).
Proof.
  destruct (same_path_twice_duplicate_ids
              overlap_env [] [] [] ["mod.py"] sample_source sample_tree
              fresh_world eq_refl eq_refl eq_refl) as (_ & H).
  exact H.
Defined.

(** ** The command line *)

Lemma patterns_map_mem (language : string) :
  Dict.mem patterns_map language = true
  <-> In language ["python"; "javascript"; "typescript"; "go"; "rust"; "java"].
Proof. rewrite DictFacts.mem_in. reflexivity. Qed.

(** A run with valid arguments and an available parser, up to the write
    of the output file. *)
Lemma main_supported menv (argv : list string) (u : unit) :
  2 <= List.length argv ->
  Dict.mem patterns_map (main_language argv) = true ->
  get_parser menv (main_language argv) = inr u ->
  let language := main_language argv in
  let root_path := main_root argv in
  let patterns := Dict.get patterns_map language [] in
  let w0 := mkWorld (init (resolve menv root_path) language None) [] in
  let banner := [ OutGenerating language; OutRootPath root_path;
                  OutPatterns patterns; OutBlank ] in
  exists G w' stats,
    generate (env_of_root menv root_path) patterns w0 = (inr G, w')
    /\ get_statistics w' = (inr stats, w')
    /\ main menv argv
       = match write_json menv root_path G with
         | inl e =>
             mkMainRun (Crashed e)
                       (banner
                        ++ [OutFound (Graph.files_processed (Graph.metadata G))])
                       (stderr w') None
         | inr _ =>
             mkMainRun Returned
                       (banner
                        ++ [OutFound (Graph.files_processed (Graph.metadata G))]
                        ++ print_summary root_path G stats)
                       (stderr w') (Some (root_path, G))
         end.
Proof.
  intros Hlen Hmem Hparser. cbv zeta.
  destruct (generate_result
              (env_of_root menv (main_root argv))
              (Dict.get patterns_map (main_language argv) [])
              (mkWorld (init (resolve menv (main_root argv))
                             (main_language argv) None) []))
    as (files & _ & Hgen). cbv zeta in Hgen.
  eexists. eexists. eexists.
  split; [exact Hgen |]. split; [apply get_statistics_run |].
  unfold main.
  assert ((List.length argv <? 2) = false) as -> by (apply Nat.ltb_ge; lia).
  fold (main_language argv). fold (main_root argv).
  rewrite Hmem. cbn [negb]. rewrite Hparser.
  rewrite Hgen, get_statistics_run.
  destruct (write_json menv (main_root argv) _); reflexivity.
Qed.


Lemma main_returned_inv menv (argv : list string) :
  outcome (main menv argv) = Returned ->
  2 <= List.length argv
  /\ Dict.mem patterns_map (main_language argv) = true
  /\ exists u, get_parser menv (main_language argv) = inr u.
Proof.
  unfold main. fold (main_language argv).
  destruct (Nat.ltb_spec (List.length argv) 2) as [Hshort | Hlong];
    [discriminate |].
  destruct (Dict.mem patterns_map (main_language argv)); [| discriminate].
  cbn [negb].
  destruct (get_parser menv (main_language argv)) as [e | u];
    [discriminate |].
  intros _. split; [exact Hlong |]. split; [reflexivity | now exists u].
Qed.

Lemma top_header_in_summary (root_path : string) (G : Graph.t)
      (stats : Stats.t) :
  In OutTopConnected (print_summary root_path G stats)
  <-> Stats.top_connected stats <> [].
Proof.
  unfold print_summary. rewrite !in_app_iff, !in_map_iff. cbn [In]. split.
  - intros [H | [H | [H | [H | H]]]].
    + destruct H as [H | [H | [H | [H | [H | [H | []]]]]]]; discriminate.
    + destruct H as (x & Hx & _). discriminate.
    + destruct H as [H | []]. discriminate.
    + destruct H as (x & Hx & _). discriminate.
    + destruct (Stats.top_connected stats); [contradiction | discriminate].
  - intros Hne. do 4 right.
    destruct (Stats.top_connected stats); [congruence | now left].
Qed.

(** The summary agrees with the file: when [main] returns, the graph it
    saved is the one it reports on, the totals printed are the lengths of
    the saved node and edge lists and the sums of the per-type counts
    printed under them, the number of files is printed twice with the same
    value, and the section of top connected nodes is printed exactly when
    [top_connected] is not empty. *)
Theorem main_summary_consistent menv (argv : list string) :
  outcome (main menv argv) = Returned ->
  exists G stats,
    saved (main menv argv) = Some (main_root argv, G)
    /\ stdout (main menv argv)
       = [ OutGenerating (main_language argv); OutRootPath (main_root argv);
           OutPatterns (Dict.get patterns_map (main_language argv) []);
           OutBlank;
           OutFound (Graph.files_processed (Graph.metadata G)) ]
         ++ print_summary (main_root argv) G stats
    /\ Graph.node_count (Graph.metadata G) = List.length (Graph.nodes G)
    /\ Graph.edge_count (Graph.metadata G) = List.length (Graph.edges G)
    /\ list_sum (map snd (Dict.items (Stats.node_types stats)))
       = List.length (Graph.nodes G)
    /\ list_sum (map snd (Dict.items (Stats.edge_types stats)))
       = List.length (Graph.edges G)
    /\ (In OutTopConnected (stdout (main menv argv))
        <-> Stats.top_connected stats <> []).
Proof.
  intros Hret.
  destruct (main_returned_inv menv argv Hret) as (Hlen & Hmem & u & Hparser).
  destruct (main_supported menv argv u Hlen Hmem Hparser)
    as (G & w' & stats & Hgen & Hstats & Hmain).
  cbv zeta in Hgen, Hmain.
  destruct (generate_result
              (env_of_root menv (main_root argv))
              (Dict.get patterns_map (main_language argv) [])
              (mkWorld (init (resolve menv (main_root argv))
                             (main_language argv) None) []))
    as (files & _ & Hgen'). cbv zeta in Hgen'.
  rewrite Hgen in Hgen'. injection Hgen' as HG Hw'.
  rewrite get_statistics_run in Hstats. injection Hstats as Hs.
  rewrite Hmain in Hret |- *.
  destruct (write_json menv (main_root argv) G) as [e | v];
    [discriminate |].
  cbn [saved stdout]. exists G, stats.
  split; [reflexivity |]. split; [reflexivity |].
  assert (Graph.nodes G = nodes (self w')) as Hn by (now rewrite HG, <- Hw').
  assert (Graph.edges G = edges (self w')) as He by (now rewrite HG, <- Hw').
  split; [now rewrite HG |]. split; [now rewrite HG |].
  split.
  { rewrite <- Hs. cbn [Stats.node_types].
    rewrite (fold_left_bump_map Node.type), list_sum_histogram, length_map.
    now rewrite Hn. }
  split.
  { rewrite <- Hs. cbn [Stats.edge_types].
    rewrite (fold_left_bump_map Edge.type), list_sum_histogram, length_map.
    now rewrite He. }
  rewrite <- (top_header_in_summary (main_root argv) G stats).
  change (In OutTopConnected
             ([ OutGenerating (main_language argv);
                OutRootPath (main_root argv);
                OutPatterns (Dict.get patterns_map (main_language argv) []);
                OutBlank;
                OutFound (Graph.files_processed (Graph.metadata G)) ]
              ++ print_summary (main_root argv) G stats)
          <-> In OutTopConnected (print_summary (main_root argv) G stats)).
  rewrite in_app_iff. cbn [In]. split; [| tauto].
  intros [[H | [H | [H | [H | [H | []]]]]] | H];
    try discriminate; exact H.
Qed.

Lemma main_summary_consistent_witness :
  exists G stats,
    saved (main sample_main_env ["graph-generator.py"; "python"; "repo"])
    = Some ("repo", G)
    /\ list_sum (map snd (Dict.items (Stats.node_types stats)))
       = List.length (Graph.nodes G).
Proof.
  destruct (main_summary_consistent
              sample_main_env ["graph-generator.py"; "python"; "repo"])
    as (G & stats & Hsaved & _ & _ & _ & Hsum & _).
  { vm_compute. reflexivity. }
  exists G, stats. split; [exact Hsaved | exact Hsum].
Defined.

(** Five of the six languages [main] accepts are not extracted: for
    javascript, typescript, go, rust and java, with the parser available
    and the output writable, [main] returns normally and saves a graph
    with no nodes and no edges, printing totals of 0. *)
Theorem main_other_languages_save_empty_graph menv (argv : list string) :
  2 <= List.length argv ->
  In (main_language argv) ["javascript"; "typescript"; "go"; "rust"; "java"] ->
  (exists u, get_parser menv (main_language argv) = inr u) ->
  (forall G, exists u, write_json menv (main_root argv) G = inr u) ->
  exists G,
    outcome (main menv argv) = Returned
    /\ saved (main menv argv) = Some (main_root argv, G)
    /\ Graph.nodes G = []
    /\ Graph.edges G = []
    /\ In (OutTotalNodes 0) (stdout (main menv argv))
    /\ In (OutTotalEdges 0) (stdout (main menv argv)).
Proof.
  intros Hlen Hlang (u & Hparser) Hwrite.
  assert (Dict.mem patterns_map (main_language argv) = true) as Hmem.
  { apply patterns_map_mem. simpl in *. tauto. }
  assert (main_language argv <> "python") as Hnot.
  { intros E. rewrite E in Hlang. simpl in Hlang. intuition discriminate. }
  destruct (main_supported menv argv u Hlen Hmem Hparser)
    as (G & w' & stats & Hgen & Hstats & Hmain).
  cbv zeta in Hgen, Hmain.
  set (w0 := mkWorld (init (resolve menv (main_root argv))
                           (main_language argv) None) []) in *.
  destruct (generate_result
              (env_of_root menv (main_root argv))
              (Dict.get patterns_map (main_language argv) []) w0)
    as (files & _ & Hgen'). cbv zeta in Hgen'.
  rewrite Hgen in Hgen'. injection Hgen' as HG Hw'.
  pose proof (for_each_process_file_other_language
                (env_of_root menv (main_root argv)) files w0 Hnot) as Hself.
  rewrite <- Hw' in Hself.
  assert (Graph.nodes G = []) as Hn by (now rewrite HG, <- Hw', Hself).
  assert (Graph.edges G = []) as He by (now rewrite HG, <- Hw', Hself).
  assert (Graph.node_count (Graph.metadata G) = 0) as Hnc
      by (rewrite HG, <- Hw', Hself; reflexivity).
  assert (Graph.edge_count (Graph.metadata G) = 0) as Hec
      by (rewrite HG, <- Hw', Hself; reflexivity).
  rewrite Hmain.
  destruct (Hwrite G) as (v & ->).
  cbn [outcome saved stdout]. exists G.
  split; [reflexivity |]. split; [reflexivity |].
  split; [exact Hn |]. split; [exact He |].
  unfold print_summary. rewrite Hnc, Hec.
  split; apply in_or_app; right; apply in_or_app; right;
    apply in_or_app; left; simpl; tauto.
Qed.

Lemma main_other_languages_save_empty_graph_witness :
  exists G,
    outcome (main sample_main_env ["graph-generator.py"; "go"]) = Returned
    /\ saved (main sample_main_env ["graph-generator.py"; "go"]) = Some (".", G)
    /\ Graph.nodes G = [].
Proof.
  destruct (main_other_languages_save_empty_graph
              sample_main_env ["graph-generator.py"; "go"])
    as (G & Hret & Hsaved & Hn & _).
  - simpl. lia.
  - simpl. tauto.
  - now exists tt.
  - intros G. now exists tt.
  - exists G. split; [exact Hret |]. split; [exact Hsaved | exact Hn].
Defined.


(** ** Files are processed independently *)

Lemma same_core_list_app (a a' b b' : list Node.t) :
  Forall2 same_core a a' -> Forall2 same_core b b' ->
  Forall2 same_core (a ++ b) (a' ++ b').
Proof. apply Forall2_app. Qed.

Lemma process_file_contribution env (f : Path) (w : World) :
  let w1 := snd (process_file env f w) in
  let c := file_contribution env (language (self w)) f in
  edges (self w1) = edges (self w) ++ snd c
  /\ Forall2 same_core (nodes (self w) ++ fst c) (nodes (self w1))
  /\ language (self w1) = language (self w).
Proof.
  cbv zeta. unfold file_contribution.
  destruct (read_bytes env f) as [e | content] eqn:Hr.
  { rewrite (process_file_failure env f e w) by now left.
    cbn [snd fst self]. rewrite !app_nil_r.
    auto using same_core_list_refl. }
  destruct (parser_parse env content) as [e | tree] eqn:Hp.
  { rewrite (process_file_failure env f e w)
      by (right; now exists content).
    cbn [snd fst self]. rewrite !app_nil_r.
    auto using same_core_list_refl. }
  destruct (String.eqb_spec (language (self w)) "python") as [Hlang | Hlang].
  - rewrite (process_file_python env f content tree w Hlang Hr Hp).
    destruct (extract_python_nodes_core tree f content w)
      as (olds & fnode & Hn & Ho & Hf & He & _ & Hl & _).
    destruct (extract_python_nodes tree f content w) as [[e | []] w1];
      cbn [snd fst self] in *; rewrite Hn, He;
      (split; [reflexivity |]); (split; [| exact Hl]);
      (apply same_core_list_app; [exact Ho |]);
      (constructor; [exact Hf | apply same_core_list_refl]).
  - destruct (process_file_world env f w) as (g' & out & Hw & _ & _ & Hg).
    destruct Hg as [-> | (Hpy & _)]; [| contradiction].
    rewrite Hw. cbn [snd fst self]. rewrite !app_nil_r.
    auto using same_core_list_refl.
Qed.

Lemma for_each_contributions env (files : list Path) (w : World) :
  let w' := snd (for_each files (process_file env) w) in
  let contribution := file_contribution env (language (self w)) in
  edges (self w')
  = edges (self w) ++ flat_map (fun f => snd (contribution f)) files
  /\ Forall2 same_core
             (nodes (self w) ++ flat_map (fun f => fst (contribution f)) files)
             (nodes (self w'))
  /\ map Node.id (nodes (self w'))
     = map Node.id (nodes (self w))
       ++ flat_map (fun f => map Node.id (fst (contribution f))) files.
Proof.
  cbv zeta.
  assert (edges (self (snd (for_each files (process_file env) w)))
          = edges (self w)
            ++ flat_map (fun f => snd (file_contribution
                                         env (language (self w)) f)) files
          /\ Forall2 same_core
               (nodes (self w)
                ++ flat_map (fun f => fst (file_contribution
                                             env (language (self w)) f)) files)
               (nodes (self (snd (for_each files (process_file env) w)))))
    as [He Hn].
  { revert w. induction files as [|f files IH]; intros w.
    - cbn. rewrite !app_nil_r. auto using same_core_list_refl.
    - rewrite for_each_process_file_cons.
      destruct (process_file_contribution env f w) as (He1 & Hn1 & Hl1).
      set (w1 := snd (process_file env f w)) in *.
      destruct (IH w1) as (He2 & Hn2). rewrite Hl1 in He2, Hn2.
      cbn [flat_map]. split.
      + now rewrite He2, He1, <- app_assoc.
      + eapply same_core_list_trans; [| exact Hn2].
        rewrite app_assoc. apply same_core_list_app; [exact Hn1 |].
        apply same_core_list_refl. }
  split; [exact He |]. split; [exact Hn |].
  rewrite (same_core_ids _ _ Hn), map_app. f_equal.
  clear. induction files as [|f files IH]; [reflexivity |].
  cbn [flat_map]. now rewrite map_app, IH.
Qed.

(** The graph after the loop is the graph before it followed by what each
    file contributes on its own, file after file: the edge list exactly,
    the node list up to the metadata of the nodes. What a file contributes
    depends on that file alone, not on the files before or after it. *)
Theorem files_contribute_independently env (files : list Path) (w : World) :
  let w' := snd (for_each files (process_file env) w) in
  let contribution := file_contribution env (language (self w)) in
  edges (self w')
  = edges (self w) ++ flat_map (fun f => snd (contribution f)) files
  /\ Forall2 same_core
             (nodes (self w) ++ flat_map (fun f => fst (contribution f)) files)
             (nodes (self w'))
  /\ map Node.id (nodes (self w'))
     = map Node.id (nodes (self w))
       ++ flat_map (fun f => map Node.id (fst (contribution f))) files.
Proof. apply for_each_contributions. Qed.

(** The order of the files only changes the order of insertion: two runs
    from the same generator over the same files in different orders end
    with the same edges and the same node ids, up to order. *)
Theorem file_order_only_permutes env (files files' : list Path) (w : World) :
  Permutation files files' ->
  let w1 := snd (for_each files (process_file env) w) in
  let w2 := snd (for_each files' (process_file env) w) in
  Permutation (edges (self w1)) (edges (self w2))
  /\ Permutation (map Node.id (nodes (self w1))) (map Node.id (nodes (self w2)))
  /\ List.length (nodes (self w1)) = List.length (nodes (self w2)).
Proof.
  intros Hperm. cbv zeta.
  destruct (for_each_contributions env files w) as (He1 & _ & Hi1).
  destruct (for_each_contributions env files' w) as (He2 & _ & Hi2).
  assert (Permutation (map Node.id (nodes (self (snd (for_each files (process_file env) w)))))
                      (map Node.id (nodes (self (snd (for_each files' (process_file env) w))))))
    as Hids.
  { rewrite Hi1, Hi2. apply Permutation_app_head.
    now apply Permutation_flat_map. }
  split; [| split; [exact Hids |]].
  - rewrite He1, He2. apply Permutation_app_head.
    now apply Permutation_flat_map.
  - apply Permutation_length in Hids. now rewrite !length_map in Hids.
Qed.

Lemma file_order_only_permutes_witness :
  Permutation
    (edges (self (snd (for_each [["pkg"; "mod.py"]; ["pkg"; "util.py"]]
                                (process_file sample_env) fresh_world))))
    (edges (self (snd (for_each [["pkg"; "util.py"]; ["pkg"; "mod.py"]]
                                (process_file sample_env) fresh_world)))).
Proof.
  destruct (file_order_only_permutes
              sample_env [["pkg"; "mod.py"]; ["pkg"; "util.py"]]
              [["pkg"; "util.py"]; ["pkg"; "mod.py"]] fresh_world)
    as (He & _).
  - apply perm_swap.
  - exact He.
Defined.

Lemma file_id_content_inj_witness :
  path_str ["a:b"; "c.py"] = path_str ["a:b"; "c.py"]
  /\ path_name ["a:b"; "c.py"] = path_name ["a:b"; "c.py"].
Proof.
  apply (file_id_content_inj ["a:b"; "c.py"] ["a:b"; "c.py"]);
    try discriminate; reflexivity.
Defined.
